(** * A shallow embedding of [yolo.py]

    The detector class [YOLO] and the streaming function [detect_video] are
    embedded as Rocq functions.  Python objects that the code mutates or
    that live outside the process (instance dictionary, NumPy's global
    random generator, the file system, Keras, PIL, OpenCV) are made
    explicit:

    - the instance dictionary [self.__dict__] is a [gmap string PyVal];
    - effects (exceptions, library calls, the global random state, the
      clock) are threaded by the monad [M] over a [World];
    - what the outside world answers (file contents, whether a model
      loads, what the network detects, which key is pressed) is read from
      an environment record [Env].

    A Python float is modelled by the rational it denotes, and every
    floating-point operation rounds its exact result to the nearest
    number of the format (binary64 for Python, binary32 for the box
    coordinates that NumPy hands out), ties to even.  Infinities and NaN
    are outside the model. *)

From Stdlib Require Import ZArith QArith Qround String Ascii List Lia Lqa.
From stdpp Require Import base gmap list strings pretty.

Local Open Scope string_scope.
Local Open Scope Z_scope.

(** ** Python values, exceptions and library events *)

(** The shapes of value found in [YOLO._defaults]: strings, floats, ints
    and a pair whose components are ints or [None]; [VNone] is [None].
    None of these values can be called. *)
Inductive PyVal :=
| VNone
| VInt (z : Z)
| VFloat (q : Q)
| VStr (s : string)
| VPair (a b : option Z).

Inductive Exn :=
| AssertionError (msg : string)
| TypeError
| AttributeError
| IndexError
| ValueError
| IOError (msg : string)
| LibraryError.

Definition RGB : Type := Z * Z * Z.

(** Calls into Keras, NumPy, PIL and OpenCV, in the order they happen. *)
Inductive Event :=
| EvOpen (path : string)
| EvGetSession
| EvLoadModel (path : string)
| EvTinyYoloBody (num_anchors num_classes : Z)
| EvYoloBody (num_anchors num_classes : Z)
| EvLoadWeights (path : string)
| EvPlaceholder
| EvMultiGpuModel
| EvYoloEval
| EvLetterbox (iw ih w h : Z)
| EvSessRun
| EvTruetype (size : Z)
| EvRectangle (x0 y0 x1 y1 : Z) (outline fill : option RGB)
| EvText (x y : Z) (label : string)
| EvVideoCapture (path : string)
| EvVideoWriter (path : string)
| EvRead
| EvPutText (text : string)
| EvImshow
| EvWrite
| EvWaitKey
| EvCloseSession.

Global Instance Event_eq_dec : EqDecision Event.
Proof. solve_decision. Defined.

(** ** NumPy's global random generator

    [np.random] is a library; the code only seeds it and shuffles with
    it.  [init_by_seed k] is the state after [np.random.seed(k)],
    [init_by_entropy e] the state after [np.random.seed(None)] when the
    operating system hands out the entropy [e], and [random_interval st m]
    draws an index in [0..m]. *)
Class NumpyRandom := {
  RandomState : Type;
  init_by_seed : Z -> RandomState;
  init_by_entropy : Z -> RandomState;
  random_interval : RandomState -> nat -> nat * RandomState;
}.

(** A small linear congruential generator, used to run the model. *)
Definition lcg_next (s : Z) : Z := (1103515245 * s + 12345) mod 2147483648.

Definition lcg_random : NumpyRandom := {|
  RandomState := Z;
  init_by_seed := fun k => k mod 2147483648;
  init_by_entropy := fun e => e mod 2147483648;
  random_interval := fun st m =>
    let st' := lcg_next st in (Z.to_nat (st' mod (Z.of_nat m + 1)), st');
|}.

(** ** The world and the effect monad *)

Section Effects.
Context {NR : NumpyRandom}.

Record World := {
  w_trace : list Event;   (* library calls so far, oldest first *)
  w_rng : RandomState;    (* np.random's global state *)
  w_timer : nat;          (* number of timer() calls so far *)
  w_reseeds : nat;        (* number of np.random.seed(None) calls so far *)
}.

Inductive outcome (A : Type) :=
| Ok (a : A)
| Raise (e : Exn).
Global Arguments Ok {A} a.
Global Arguments Raise {A} e.

Definition M (A : Type) : Type := World -> outcome A * World.

Definition ret {A} (a : A) : M A := fun w => (Ok a, w).

Definition bind {A B} (m : M A) (k : A -> M B) : M B :=
  fun w => match m w with
           | (Ok a, w') => k a w'
           | (Raise e, w') => (Raise e, w')
           end.

Definition raise {A} (e : Exn) : M A := fun w => (Raise e, w).

Definition emit (ev : Event) : M unit :=
  fun w => (Ok tt, {| w_trace := w_trace w ++ [ev]; w_rng := w_rng w;
                      w_timer := w_timer w; w_reseeds := w_reseeds w |}).

(** The world after the further library calls [evs]. *)
Definition logged (evs : list Event) (w : World) : World :=
  {| w_trace := w_trace w ++ evs; w_rng := w_rng w;
     w_timer := w_timer w; w_reseeds := w_reseeds w |}.

Definition get_rng : M RandomState := fun w => (Ok (w_rng w), w).

Definition put_rng (st : RandomState) : M unit :=
  fun w => (Ok tt, {| w_trace := w_trace w; w_rng := st;
                      w_timer := w_timer w; w_reseeds := w_reseeds w |}).

(** The index of the next reseeding from the operating system. *)
Definition next_reseed : M nat :=
  fun w => (Ok (w_reseeds w),
            {| w_trace := w_trace w; w_rng := w_rng w;
               w_timer := w_timer w; w_reseeds := S (w_reseeds w) |}).

(** The index of the next clock reading. *)
Definition next_tick : M nat :=
  fun w => (Ok (w_timer w),
            {| w_trace := w_trace w; w_rng := w_rng w;
               w_timer := S (w_timer w); w_reseeds := w_reseeds w |}).

(** Lifts a lookup that raises [e] when it fails. *)
Definition or_raise {A} (o : option A) (e : Exn) : M A :=
  match o with
  | Some a => ret a
  | None => raise e
  end.

(** [assert cond, msg] *)
Definition py_assert (cond : bool) (msg : string) : M unit :=
  if cond then ret tt else raise (AssertionError msg).

(** [try: body / except: handler / else: orelse] with a bare [except]:
    every exception of [body] is caught; exceptions of [handler] and of
    [orelse] propagate. *)
Definition try_except_else {A B} (body : M A) (handler : M B)
    (orelse : A -> M B) : M B :=
  fun w => match body w with
           | (Ok a, w') => orelse a w'
           | (Raise _, w') => handler w'
           end.
End Effects.

Notation "x <- m ;; k" := (bind m (fun x => k))
  (at level 100, m at next level, right associativity).
Notation "m ;;; k" := (bind m (fun _ => k))
  (at level 100, right associativity).

(** ** Configuration: [_defaults], [get_defaults], the dictionary part of
    [__init__] *)

Definition _defaults : gmap string PyVal :=
  list_to_map
    [ ("model_path", VStr "model_data/yolo.h5");
      ("anchors_path", VStr "model_data/yolo_anchors.txt");
      ("classes_path", VStr "model_data/coco_classes.txt");
      ("score", VFloat (3 # 10));
      ("iou", VFloat (45 # 100));
      ("model_image_size", VPair (Some 416) (Some 416));
      ("gpu_num", VInt 1) ].

Definition get_defaults (n : string) : PyVal :=
  match _defaults !! n with
  | Some v => v
  | None => VStr ("Unrecognized attribute name '" +:+ n +:+ "'")
  end.

(** [d.update(e)]: the entries of [e] win. *)
Definition dict_update (d e : gmap string PyVal) : gmap string PyVal := e ∪ d.

(** Lines 40-41 of [__init__]: the instance dictionary after the two
    [update] calls. *)
Definition init_dict (kwargs : gmap string PyVal) : gmap string PyVal :=
  dict_update (dict_update ∅ _defaults) kwargs.

(** The configuration fields of the detector. *)
Definition known_fields : list string :=
  [ "model_path"; "anchors_path"; "classes_path"; "score"; "iou";
    "model_image_size"; "gpu_num" ].

(** ** Floating point

    The result of an operation is its exact result rounded to the nearest
    number of the format, ties to even.  No operation of the program can
    overflow: the operands are list lengths, clock readings, hues and
    finite single-precision coordinates. *)

(** The nearest integer, ties to even. *)
Definition rne (x : Q) : Z :=
  let f := Qfloor x in
  match (x - inject_Z f ?= 1 # 2)%Q with
  | Lt => f
  | Gt => f + 1
  | Eq => if Z.even f then f else f + 1
  end.

(** For a non-negative [y] counted in units of the smallest subnormal
    number: how many low bits are beyond a significand of [p] bits. *)
Definition shift_of (p : Z) (y : Q) : Z :=
  Z.max 0 (Z.log2 (Qfloor y) - (p - 1)).

(** [y] rounded to [p] significant bits, in the same units. *)
Definition round_units (p : Z) (y : Q) : Z :=
  let sh := shift_of p y in
  rne (y / inject_Z (2 ^ sh)) * 2 ^ sh.

(** Rounding to the binary format of precision [p] whose smallest
    positive number is [2^(-u)]. *)
Definition round_float (p u : Z) (x : Q) : Q :=
  let U := inject_Z (2 ^ u) in
  if Qle_bool 0 x then (inject_Z (round_units p (x * U)) / U)%Q
  else (- (inject_Z (round_units p (- x * U)) / U))%Q.

(** binary64, Python's [float]. *)
Definition fl64 : Q -> Q := round_float 53 1074.

(** binary32, NumPy's [float32]. *)
Definition fl32 : Q -> Q := round_float 24 149.

(** [a + b], [a - b] and [a * b] on Python floats. *)
Definition float_add (a b : Q) : Q := fl64 (a + b).
Definition float_sub (a b : Q) : Q := fl64 (a - b).
Definition float_mul (a b : Q) : Q := fl64 (a * b).

(** [float(z)], also the conversion of an int operand next to a float. *)
Definition float_of_int (z : Z) : Q := fl64 (inject_Z z).

(** [a / b] on ints with [b] not zero: the quotient, correctly rounded. *)
Definition int_truediv (a b : Z) : Q := fl64 (inject_Z a / inject_Z b).

(** ** Python and library helpers *)

(** [int(x)] on a float truncates towards zero. *)
Definition py_int (x : Q) : Z := Z.quot (Qnum x) (Z.pos (Qden x)).

(** [.astype('int32')] on a whole-valued float: the value when it fits in
    32 bits; otherwise the conversion instruction of x86-64 answers with
    the smallest 32-bit integer. *)
Definition astype_int32 (z : Z) : Z :=
  if (- 2 ^ 31 <=? z) && (z <? 2 ^ 31) then z else - 2 ^ 31.

(** [np.floor(x).astype('int32')] *)
Definition np_floor_int32 (x : Q) : Z := astype_int32 (Qfloor x).

(** The type that NumPy gives to [x + 0.5] when [x] is a [float32]
    scalar: [float64] under the value-based promotion of NumPy 1,
    [float32] since NumPy 2, where a Python float is a weak scalar. *)
Inductive Promotion :=
| ValueBased
| WeakScalar.

Definition sum_format (pr : Promotion) : Q -> Q :=
  match pr with
  | ValueBased => fl64
  | WeakScalar => fl32
  end.

(** [np.floor(x + 0.5).astype('int32')] on a [float32] coordinate [x]:
    the sum is rounded to its format before the floor is taken. *)
Definition round_half_up (pr : Promotion) (x : Q) : Z :=
  np_floor_int32 (sum_format pr (x + (1 # 2))).

(** [min(a, b)] on floats: [b] only when it is strictly smaller. *)
Definition py_min (a b : Q) : Q := if Qle_bool a b then a else b.

(** [l[i]] with Python's negative indices; [None] stands for IndexError. *)
Definition py_index {A} (l : list A) (i : Z) : option A :=
  let n := Z.of_nat (length l) in
  if (0 <=? i) && (i <? n) then l !! Z.to_nat i
  else if (- n <=? i) && (i <? 0) then l !! Z.to_nat (n + i)
  else None.

(** [s.endswith(suf)] *)
Definition endswith (s suf : string) : bool :=
  bool_decide (list_ascii_of_string suf `suffix_of` list_ascii_of_string s).

Definition startswith (s pre : string) : bool := String.prefix pre s.

(** [s.split(c)] for a one-character separator. *)
Fixpoint split_on (c : ascii) (s : string) : list string :=
  match s with
  | EmptyString => [EmptyString]
  | String a s' =>
      if Ascii.eqb a c then EmptyString :: split_on c s'
      else match split_on c s' with
           | [] => [String a EmptyString]
           | p :: ps => String a p :: ps
           end
  end.

Definition is_space (a : ascii) : bool :=
  let n := nat_of_ascii a in
  ((9 <=? n) && (n <=? 13))%nat || (n =? 32)%nat.

Fixpoint lstrip (s : string) : string :=
  match s with
  | String a s' => if is_space a then lstrip s' else s
  | EmptyString => EmptyString
  end.

(** [s.strip()] *)
Definition strip (s : string) : string :=
  String.rev (lstrip (String.rev (lstrip s))).

(** [f.readlines()] followed by nothing else: the pieces between newline
    characters, without a last empty piece. *)
Definition readlines (content : string) : list string :=
  let pieces := split_on "010"%char content in
  match List.last pieces "x" with
  | EmptyString => List.removelast pieces
  | _ => pieces
  end.

(** [f.readline()]: the first line. *)
Definition readline (content : string) : string :=
  List.hd EmptyString (split_on "010"%char content).

Fixpoint rstrip_rev_slash (r : string) : string :=
  match r with
  | String "/" r' => rstrip_rev_slash r'
  | _ => r
  end.

(** [s.rstrip('/')] *)
Definition rstrip_slash (s : string) : string :=
  String.rev (rstrip_rev_slash (String.rev s)).

(** Splits [rest] at its first ["/"]: the part before, and the part from
    the slash on. *)
Fixpoint break_slash (rest : string) : string * string :=
  match rest with
  | EmptyString => (EmptyString, EmptyString)
  | String "/" _ => (EmptyString, rest)
  | String a r => let '(name, tail) := break_slash r in (String a name, tail)
  end.

(** ** Images, detections, networks *)

Record Image := { width : Z; height : Z }.

(** A video frame as OpenCV hands it out: an array of [rows] by [cols]. *)
Record Frame := { rows : Z; cols : Z }.

(** The geometry of a letterboxed image: canvas size, scale factor, size
    of the resized source inside the canvas, and where it is pasted. *)
Record LetterboxedImage := {
  lb_size : Z * Z;
  lb_scale : Q;
  lb_inner : Z * Z;
  lb_offset : Z * Z;
}.

(** What [sess.run] returns: three parallel arrays. *)
Record Detections := {
  out_boxes : list (Q * Q * Q * Q);
  out_scores : list Q;
  out_classes : list Z;
}.

(** A complete serialized network: [layers[-1].output_shape[-1]] and
    [len(output)]. *)
Record Artifact := { out_depth : Z; num_outputs : positive }.

(** The network the detector ends up with, by the way it was acquired. *)
Inductive Network :=
| Loaded (a : Artifact)
| TinyYoloBody (num_anchors num_classes : Z)
| YoloBody (num_anchors num_classes : Z)
| MultiGpu (gpus : PyVal) (net : Network).

(** ** The environment *)

Record Env := {
  env_home : option string;                 (* home directory of the user *)
  env_passwd : string -> option string;     (* home directory of a named user *)
  env_file : string -> option string;       (* content of a text file *)
  env_float : string -> option Q;           (* float(s); None is ValueError *)
  env_load_model : string -> option Artifact;   (* None: load_model raises *)
  env_load_weights : string -> bool;        (* does load_weights succeed *)
  env_entropy : nat -> Z;                   (* entropy of the n-th reseeding *)
  env_timer : nat -> Q;                     (* value of the n-th timer() *)
  env_sess_run : LetterboxedImage -> Z * Z -> Detections;
  env_textsize : string -> Z * Z;           (* draw.textsize(label, font) *)
  env_format_score : Q -> string;           (* '{:.2f}'.format(score) *)
  env_video : string -> option (list Frame);    (* None: cannot be opened *)
  env_waitKey : nat -> Z;                   (* key code at the n-th poll *)
  env_promotion : Promotion;                (* the installed NumPy's rule *)
}.

(** [os.path.expanduser] (POSIX): a leading [~] or [~user] is replaced by
    that user's home directory when it is known. *)
Definition expanduser (env : Env) (path : string) : string :=
  match path with
  | String "~" rest =>
      let '(name, tail) := break_slash rest in
      let userhome :=
        match name with
        | EmptyString => env_home env
        | _ => env_passwd env name
        end in
      match userhome with
      | None => path
      | Some home =>
          match rstrip_slash home +:+ tail with
          | EmptyString => "/"
          | p => p
          end
      end
  | _ => path
  end.

(** ** The color palette (lines 87-95 of [generate]) *)

(** [colorsys.hsv_to_rgb] *)
Definition hsv_to_rgb (h s v : Q) : Q * Q * Q :=
  if Qeq_bool s 0 then (v, v, v)
  else
    let i := py_int (float_mul h 6) in
    let f := float_sub (float_mul h 6) (float_of_int i) in
    let p := float_mul v (float_sub 1 s) in
    let q := float_mul v (float_sub 1 (float_mul s f)) in
    let t := float_mul v (float_sub 1 (float_mul s (float_sub 1 f))) in
    match i mod 6 with
    | 0 => (v, t, p)
    | 1 => (q, v, p)
    | 2 => (p, v, t)
    | 3 => (p, q, v)
    | 4 => (t, p, v)
    | _ => (v, p, q)
    end.

(** The hue sweep [(x / N, 1., 1.) for x in range(N)]. *)
Definition hsv_tuples (N : nat) : list (Q * Q * Q) :=
  map (fun x : nat => (int_truediv (Z.of_nat x) (Z.of_nat N), 1, 1)%Q)
      (seq 0 N).

(** [(int(x[0] * 255), int(x[1] * 255), int(x[2] * 255))] *)
Definition to_rgb255 (x : Q * Q * Q) : RGB :=
  let '(r, g, b) := x in
  (py_int (float_mul r (float_of_int 255)),
   py_int (float_mul g (float_of_int 255)),
   py_int (float_mul b (float_of_int 255))).

(** The palette before it is shuffled. *)
Definition sweep_colors (N : nat) : list RGB :=
  map to_rgb255 (map (fun x : Q * Q * Q => let '(h, s, v) := x in hsv_to_rgb h s v)
                     (hsv_tuples N)).

(** A color whose three components fit in eight bits. *)
Definition rgb8 (c : RGB) : Prop :=
  let '(r, g, b) := c in 0 <= r <= 255 /\ 0 <= g <= 255 /\ 0 <= b <= 255.

(** A fully saturated color of full value: one channel is 255, one is 0
    and the third is in between. *)
Definition saturated (c : RGB) : Prop :=
  let '(r, g, b) := c in
  rgb8 c /\ Z.max r (Z.max g b) = 255 /\ Z.min r (Z.min g b) = 0.

(** [x[i], x[j] = x[j], x[i]] *)
Definition swap {A} (i j : nat) (x : list A) : list A :=
  match x !! i, x !! j with
  | Some a, Some b => <[j:=a]> (<[i:=b]> x)
  | _, _ => x
  end.

Section Shuffle.
Context {NR : NumpyRandom}.

(** The loop of [np.random.shuffle] on a list:
    [for i in reversed(range(1, n)): j = random_interval(i); swap]. *)
Fixpoint shuffle_from {A} (i : nat) (st : RandomState) (x : list A)
    : list A * RandomState :=
  match i with
  | O => (x, st)
  | S i' =>
      let '(j, st') := random_interval st i in
      shuffle_from i' st' (swap i j x)
  end.

Definition shuffle {A} (st : RandomState) (x : list A) : list A * RandomState :=
  shuffle_from (length x - 1) st x.
End Shuffle.

(** ** The class [YOLO] *)

(** The detector object.  Its instance dictionary is kept in two parts:
    the attributes that [__init__] and [generate] assign are the fields
    [class_names], [anchors], [yolo_model] and [colors] (the session, the
    placeholder and the three output tensors carry no data here), and
    [__dict__] holds every other entry. *)
Record YOLO := {
  __dict__ : gmap string PyVal;
  class_names : list string;
  anchors : list (Q * Q);
  yolo_model : Network;
  colors : list RGB;
}.

(** The names that [__init__] (lines 42-45) and [generate] (lines 70-100)
    assign on the instance after the two [update] calls. *)
Definition assigned_attributes : list string :=
  [ "class_names"; "anchors"; "sess"; "yolo_model"; "colors";
    "input_image_shape"; "boxes"; "scores"; "classes" ].

(** The methods that [__init__] calls on the instance. *)
Definition called_methods : list string :=
  [ "_get_class"; "_get_anchors"; "generate" ].

(** What is left of the entries of [d] once those names are assigned: an
    assignment replaces the entry that an override had put under its
    name. *)
Definition other_entries (d : gmap string PyVal) : gmap string PyVal :=
  foldr delete d assigned_attributes.

(** [np.array(anchors).reshape(-1, 2)]; [None] stands for ValueError. *)
Fixpoint reshape2 (l : list Q) : option (list (Q * Q)) :=
  match l with
  | [] => Some []
  | a :: b :: r => option_map (cons (a, b)) (reshape2 r)
  | [_] => None
  end.

(** [self.model_image_size != (None, None)] and its two components. *)
Inductive SizeSetting :=
| Sentinel
| Fixed (a b : option Z)
| NotAPair.

Definition size_setting (d : gmap string PyVal) : SizeSetting :=
  match d !! "model_image_size" with
  | Some (VPair None None) => Sentinel
  | Some (VPair a b) => Fixed a b
  | _ => NotAPair
  end.

Section Detector.
Context {NR : NumpyRandom}.
Variable env : Env.

(** A string-valued attribute, as the path functions need it. *)
Definition attr_str (d : gmap string PyVal) (name : string) : M string :=
  match d !! name with
  | Some (VStr s) => ret s
  | _ => raise TypeError
  end.

Definition open_read (path : string) : M string :=
  emit (EvOpen path) ;;;
  or_raise (env_file env path) (IOError "No such file or directory").

Definition _get_class (d : gmap string PyVal) : M (list string) :=
  p <- attr_str d "classes_path" ;;
  let classes_path := expanduser env p in
  content <- open_read classes_path ;;
  ret (map strip (readlines content)).

Definition _get_anchors (d : gmap string PyVal) : M (list (Q * Q)) :=
  p <- attr_str d "anchors_path" ;;
  let anchors_path := expanduser env p in
  content <- open_read anchors_path ;;
  floats <- or_raise (mapM (env_float env) (split_on "," (readline content)))
                     ValueError ;;
  or_raise (reshape2 floats) ValueError.

(** [np.random.seed(k)] and [np.random.seed(None)] *)
Definition np_random_seed (seed : option Z) : M unit :=
  match seed with
  | Some k => put_rng (init_by_seed k)
  | None => n <- next_reseed ;; put_rng (init_by_entropy (env_entropy env n))
  end.

(** [np.random.shuffle(x)] *)
Definition np_random_shuffle {A} (x : list A) : M (list A) :=
  st <- get_rng ;;
  let '(x', st') := shuffle st x in
  put_rng st' ;;;
  ret x'.

Definition generate_colors (N : nat) : M (list RGB) :=
  let colors := sweep_colors N in
  np_random_seed (Some 10101) ;;;
  colors <- np_random_shuffle colors ;;
  np_random_seed None ;;;
  ret colors.

Definition load_model (path : string) : M Artifact :=
  emit (EvLoadModel path) ;;;
  or_raise (env_load_model env path) LibraryError.

Definition load_weights (path : string) : M unit :=
  emit (EvLoadWeights path) ;;;
  if env_load_weights env path then ret tt else raise LibraryError.

Definition tiny_yolo_body (num_anchors num_classes : Z) : M Network :=
  emit (EvTinyYoloBody num_anchors num_classes) ;;;
  ret (TinyYoloBody num_anchors num_classes).

Definition yolo_body (num_anchors num_classes : Z) : M Network :=
  emit (EvYoloBody num_anchors num_classes) ;;;
  ret (YoloBody num_anchors num_classes).

(** The right-hand side of the consistency assertion:
    [num_anchors / len(output) * (num_classes + 5)], a float: the quotient
    of the two ints is rounded, and so is its product with the third. *)
Definition expected_depth (num_anchors : Z) (heads : positive) (num_classes : Z) : Q :=
  float_mul (int_truediv num_anchors (Z.pos heads)) (float_of_int (num_classes + 5)).

(** [self.gpu_num >= 2] *)
Definition gpu_num_ge_2 (d : gmap string PyVal) : M bool :=
  match d !! "gpu_num" with
  | Some (VInt z) => ret (2 <=? z)
  | Some (VFloat q) => ret (Qle_bool 2 q)
  | _ => raise TypeError
  end.

Definition mismatch_msg : string :=
  "Mismatch between model and given anchor and class sizes".

Definition h5_msg : string := "Keras model or weights must be a .h5 file.".

(** Lines 62-83 of [generate]: the network. *)
Definition resolve_model (d : gmap string PyVal) (class_names : list string)
    (anchors : list (Q * Q)) : M Network :=
  self_model_path <- attr_str d "model_path" ;;
  let model_path := expanduser env self_model_path in
  py_assert (endswith model_path ".h5") h5_msg ;;;
  let num_anchors := Z.of_nat (length anchors) in
  let num_classes := Z.of_nat (length class_names) in
  let is_tiny_version := num_anchors =? 6 in
  try_except_else
    (load_model model_path)
    (net <- (if is_tiny_version
             then tiny_yolo_body (num_anchors / 2) num_classes
             else yolo_body (num_anchors / 3) num_classes) ;;
     load_weights self_model_path ;;;
     ret net)
    (fun a =>
       py_assert (Qeq_bool (inject_Z (out_depth a))
                           (expected_depth num_anchors (num_outputs a) num_classes))
                 mismatch_msg ;;;
       ret (Loaded a)).

Definition generate (d : gmap string PyVal) (class_names : list string)
    (anchors : list (Q * Q)) : M (Network * list RGB) :=
  net <- resolve_model d class_names anchors ;;
  colors <- generate_colors (length class_names) ;;
  emit EvPlaceholder ;;;
  multi <- gpu_num_ge_2 d ;;
  net <- (if multi : bool
          then emit EvMultiGpuModel ;;;
               ret (MultiGpu (default VNone (d !! "gpu_num")) net)
          else ret net) ;;
  emit EvYoloEval ;;;
  ret (net, colors).

(** [self.name(...)] for a method [name] of the class: an entry of the
    instance dictionary under that name shadows the method, and calling
    it raises [TypeError]. *)
Definition call_method {A} (d : gmap string PyVal) (name : string) (body : M A)
    : M A :=
  match d !! name with
  | Some _ => raise TypeError
  | None => body
  end.

(** Lines 42-45 run the three methods on the dictionary of lines 40-41
    (none of the names they read is assigned in between) and assign their
    results on the instance, replacing whatever an override had put under
    those names. *)
Definition __init__ (kwargs : gmap string PyVal) : M YOLO :=
  let d := init_dict kwargs in
  class_names <- call_method d "_get_class" (_get_class d) ;;
  anchors <- call_method d "_get_anchors" (_get_anchors d) ;;
  emit EvGetSession ;;;
  r <- call_method d "generate" (generate d class_names anchors) ;;
  ret {| __dict__ := other_entries d; class_names := class_names;
         anchors := anchors; yolo_model := fst r; colors := snd r |}.
End Detector.

(** ** Detection on one image *)

(** Modelled from the spec: [letterbox_image] of [yolo3/utils.py], which
    is not among the sources.  One uniform scale factor
    [min(target_w / src_w, target_h / src_h)], the source resized by it
    (to whole pixels), and the result pasted centred on a canvas of
    exactly the target size, the rest of the canvas being padding. *)
Definition letterbox_image (image : Image) (size : Z * Z) : LetterboxedImage :=
  let '(w, h) := size in
  let iw := width image in
  let ih := height image in
  let scale := py_min (inject_Z w / inject_Z iw) (inject_Z h / inject_Z ih) in
  let nw := py_int (inject_Z iw * scale) in
  let nh := py_int (inject_Z ih * scale) in
  {| lb_size := size; lb_scale := scale; lb_inner := (nw, nh);
     lb_offset := ((w - nw) / 2, (h - nh) / 2) |}.

(** Lines 148-152: the four edges of a box against an image. *)
Definition clamp_box (pr : Promotion) (box : Q * Q * Q * Q) (image : Image)
    : Z * Z * Z * Z :=
  let '(b_top, b_left, b_bottom, b_right) := box in
  let b_top := Z.max 0 (round_half_up pr b_top) in
  let b_left := Z.max 0 (round_half_up pr b_left) in
  let b_bottom := Z.min (height image) (round_half_up pr b_bottom) in
  let b_right := Z.min (width image) (round_half_up pr b_right) in
  (b_top, b_left, b_bottom, b_right).

(** [list(enumerate(l))] *)
Definition enumerate {A} (l : list A) : list (nat * A) := zip (seq 0 (length l)) l.

(** [range(n)] *)
Definition range (n : Z) : list Z := map Z.of_nat (seq 0 (Z.to_nat n)).

Definition multiples_msg : string := "Multiples of 32 required".

Section Detection.
Context {NR : NumpyRandom}.
Variable env : Env.

Definition timer : M Q := n <- next_tick ;; ret (env_timer env n).

Fixpoint for_each {A} (f : A -> M unit) (l : list A) : M unit :=
  match l with
  | [] => ret tt
  | a :: l' => f a ;;; for_each f l'
  end.

Definition call_letterbox (image : Image) (size : Z * Z) : M LetterboxedImage :=
  emit (EvLetterbox (width image) (height image) (fst size) (snd size)) ;;;
  ret (letterbox_image image size).

(** Lines 110-118 of [detect_image]. *)
Definition preprocess (d : gmap string PyVal) (image : Image) : M LetterboxedImage :=
  match size_setting d with
  | Fixed a b =>
      s0 <- or_raise a TypeError ;;
      py_assert (s0 mod 32 =? 0) multiples_msg ;;;
      s1 <- or_raise b TypeError ;;
      py_assert (s1 mod 32 =? 0) multiples_msg ;;;
      call_letterbox image (s1, s0)
  | Sentinel =>
      let new_image_size := (width image - width image mod 32,
                             height image - height image mod 32) in
      call_letterbox image new_image_size
  | NotAPair => raise TypeError
  end.

(** The body of the loop over detections, lines 140-169. *)
Definition draw_detection (self : YOLO) (image : Image) (r : Detections)
    (thickness : Z) (ic : nat * Z) : M unit :=
  let '(i, c) := ic in
  predicted_class <- or_raise (py_index (class_names self) c) IndexError ;;
  box <- or_raise (out_boxes r !! i) IndexError ;;
  score <- or_raise (out_scores r !! i) IndexError ;;
  let label := predicted_class +:+ " " +:+ env_format_score env score in
  let label_size := env_textsize env label in
  let '(b_top, b_left, b_bottom, b_right) :=
    clamp_box (env_promotion env) box image in
  let text_origin :=
    if 0 <=? b_top - snd label_size
    then (b_left, b_top - snd label_size)
    else (b_left, b_top + 1) in
  for_each (fun k =>
              color <- or_raise (py_index (colors self) c) IndexError ;;
              emit (EvRectangle (b_left + k) (b_top + k)
                                (b_right - k) (b_bottom - k)
                                (Some color) None))
           (range thickness) ;;;
  color <- or_raise (py_index (colors self) c) IndexError ;;
  emit (EvRectangle (fst text_origin) (snd text_origin)
                    (fst text_origin + fst label_size)
                    (snd text_origin + snd label_size)
                    None (Some color)) ;;;
  emit (EvText (fst text_origin) (snd text_origin) label).

Definition detect_image (self : YOLO) (image : Image) : M Image :=
  start <- timer ;;
  boxed_image <- preprocess (__dict__ self) image ;;
  emit EvSessRun ;;;
  let r := env_sess_run env boxed_image (height image, width image) in
  emit (EvTruetype
          (np_floor_int32
             (float_add (float_mul (fl64 (3 # 100)) (float_of_int (height image)))
                        (1 # 2)))) ;;;
  let thickness := (width image + height image) / 300 in
  for_each (draw_detection self image r thickness)
           (rev (enumerate (out_classes r))) ;;;
  end_ <- timer ;;
  ret image.

Definition close_session : M unit := emit EvCloseSession.

(** ** The streaming loop *)

Record FpsState := { accum_time : Q; curr_fps : Z; fps : string }.

(** Lines 204-209: the sum and the difference are floats. *)
Definition fps_update (s : FpsState) (exec_time : Q) : FpsState :=
  let accum := float_add (accum_time s) exec_time in
  let count := curr_fps s + 1 in
  if negb (Qle_bool accum 1)
  then {| accum_time := float_sub accum 1; curr_fps := 0;
          fps := "FPS: " +:+ pretty count |}
  else {| accum_time := accum; curr_fps := count; fps := fps s |}.

(** [vid.read()] on a capture with the frames [frames] left. *)
Definition vid_read (frames : list Frame) : bool * option Frame * list Frame :=
  match frames with
  | [] => (false, None, [])
  | f :: rest => (true, Some f, rest)
  end.

(** [Image.fromarray(frame)]: [None] has no array interface. *)
Definition Image_fromarray (frame : option Frame) : M Image :=
  match frame with
  | Some f => ret {| width := cols f; height := rows f |}
  | None => raise AttributeError
  end.

(** Lines 198-217: one iteration after the read; returns whether the
    loop breaks, the new [prev_time] and the new counters. *)
Definition loop_body (yolo : YOLO) (isOutput : bool) (frame : option Frame)
    (k : nat) (prev_time : Q) (s : FpsState) : M (bool * Q * FpsState) :=
  image <- Image_fromarray frame ;;
  image <- detect_image yolo image ;;
  curr_time <- timer ;;
  let exec_time := float_sub curr_time prev_time in
  let s' := fps_update s exec_time in
  emit (EvPutText (fps s')) ;;;
  emit EvImshow ;;;
  (if isOutput then emit EvWrite else ret tt) ;;;
  emit EvWaitKey ;;;
  ret (Z.land (env_waitKey env k) 255 =? 113, curr_time, s').

(** [while True]: [None] when the fuel runs out before the loop ends. *)
Fixpoint video_loop (fuel : nat) (yolo : YOLO) (isOutput : bool)
    (frames : list Frame) (k : nat) (prev_time : Q) (s : FpsState)
    : M (option unit) :=
  match fuel with
  | O => ret None
  | S fuel' =>
      emit EvRead ;;;
      let '(return_value, frame, rest) := vid_read frames in
      r <- loop_body yolo isOutput frame k prev_time s ;;
      let '(stop, prev_time', s') := r in
      if stop : bool then ret (Some tt)
      else video_loop fuel' yolo isOutput rest (S k) prev_time' s'
  end.

Definition detect_video (fuel : nat) (yolo : YOLO) (video_path output_path : string)
    : M (option unit) :=
  emit (EvVideoCapture video_path) ;;;
  frames <- or_raise (env_video env video_path)
                     (IOError "Couldn't open webcam or video") ;;
  let isOutput := negb (String.eqb output_path "") in
  (if isOutput then emit (EvVideoWriter output_path) else ret tt) ;;;
  prev_time <- timer ;;
  r <- video_loop fuel yolo isOutput frames 0 prev_time
         {| accum_time := 0; curr_fps := 0; fps := "FPS: ??" |} ;;
  match r with
  | Some _ => close_session ;;; ret (Some tt)
  | None => ret None
  end.
End Detection.

(** ** Reading traces *)

(** The calls that [detect_image] makes: preprocessing, inference and
    drawing. *)
Definition drawing_event (ev : Event) : Prop :=
  match ev with
  | EvLetterbox _ _ _ _ | EvSessRun | EvTruetype _
  | EvRectangle _ _ _ _ _ _ | EvText _ _ _ => True
  | _ => False
  end.

(** How often the call [ev] has been made. *)
Definition occurrences {NR : NumpyRandom} (ev : Event) (w : World) : nat :=
  count_occ Event_eq_dec (w_trace w) ev.

(** A computation all of whose library calls satisfy [P]. *)
Definition emits_only {NR : NumpyRandom} (P : Event -> Prop) {A} (m : M A) : Prop :=
  forall (w : World) (r : outcome A) (w' : World),
    m w = (r, w') ->
    exists evs : list Event, w_trace w' = (w_trace w ++ evs)%list /\ Forall P evs.

(** The image that [Image.fromarray] makes of a frame. *)
Definition frame_image (f : Frame) : Image := {| width := cols f; height := rows f |}.

(** Opening a text file. *)
Definition open_event (ev : Event) : Prop :=
  match ev with
  | EvOpen _ => True
  | _ => False
  end.

(** What clamping grants of a drawing call: an outline rectangle has a
    first corner that is not negative and a second corner that is not
    beyond the width and the height of the image, each corner being
    bounded on that side only; a label background and a label text start
    at a corner that is not negative. *)
Definition clamped_to_image (image : Image) (ev : Event) : Prop :=
  match ev with
  | EvRectangle x0 y0 x1 y1 (Some _) _ =>
      0 <= x0 /\ 0 <= y0 /\ x1 <= width image /\ y1 <= height image
  | EvRectangle x0 y0 _ _ None _ => 0 <= x0 /\ 0 <= y0
  | EvText x y _ => 0 <= x /\ 0 <= y
  | _ => True
  end.

(** Any call but the drawing of an outline rectangle. *)
Definition not_outline (ev : Event) : Prop :=
  match ev with
  | EvRectangle _ _ _ _ (Some _) _ => False
  | _ => True
  end.

(** A computation that leaves the observation [f] of the world as it is. *)
Definition preserves {NR : NumpyRandom} {X A} (f : World -> X) (m : M A) : Prop :=
  forall (w : World) (r : outcome A) (w' : World), m w = (r, w') -> f w' = f w.

(** The state of NumPy's global generator together with the number of
    reseedings. *)
Definition rng_view {NR : NumpyRandom} (w : World) : RandomState * nat :=
  (w_rng w, w_reseeds w).

(** [[a0, a1, a2, a3, ...]] for the rows [(a0, a1), (a2, a3), ...]. *)
Definition flatten_pairs (ps : list (Q * Q)) : list Q :=
  concat (map (fun a : Q * Q => [fst a; snd a]) ps).

(** Between two worlds the session was not closed, and every frame shown
    was written to the sink when there is one, none otherwise. *)
Definition shown_and_written {NR : NumpyRandom} (isOutput : bool) (w w' : World) : Prop :=
  occurrences EvCloseSession w' = occurrences EvCloseSession w
  /\ exists n : nat,
       occurrences EvImshow w' = (occurrences EvImshow w + n)%nat
       /\ occurrences EvWrite w' = (occurrences EvWrite w + if isOutput then n else 0)%nat.

(** ** A concrete environment, to run the model *)

Fixpoint digits_value (acc : Z) (s : string) : option Z :=
  match s with
  | EmptyString => Some acc
  | String a s' =>
      let n := Z.of_nat (nat_of_ascii a) in
      if (48 <=? n) && (n <=? 57) then digits_value (10 * acc + (n - 48)) s'
      else None
  end.

(** [float(s)] for the unsigned whole numbers of an anchors file. *)
Definition float_of_digits (s : string) : option Q :=
  match strip s with
  | EmptyString => None
  | t => option_map inject_Z (digits_value 0 t)
  end.

Definition demo_files (path : string) : option string :=
  if String.eqb path "model_data/coco_classes.txt"
  then Some ("person" +:+ String "010" ("bicycle" +:+ String "010" ("cat" +:+ String "010" "")))
  else if String.eqb path "model_data/yolo_anchors.txt"
  then Some "10,13,  16,30,  33,23,  30,61,  62,45,  59,119,  116,90,  156,198,  373,326"
  else None.

(** A machine on which [model_data/yolo.h5] is a complete network with
    three heads of depth 24 (three anchors per head, three classes), and
    [clip.mp4] is a video of two frames; no key is ever pressed. *)
Definition demo_env : Env := {|
  env_home := Some "/home/user";
  env_passwd := fun _ => None;
  env_file := demo_files;
  env_float := float_of_digits;
  env_load_model := fun p =>
    if String.eqb p "model_data/yolo.h5"
    then Some {| out_depth := 24; num_outputs := 3 |} else None;
  env_load_weights := fun _ => true;
  env_entropy := fun n => 7 + Z.of_nat n;
  env_timer := fun n => (inject_Z (Z.of_nat n) / 4)%Q;
  env_sess_run := fun _ _ =>
    {| out_boxes := [(10, 10, 50, 50)%Q]; out_scores := [91 # 100];
       out_classes := [2] |};
  env_textsize := fun s => (6 * Z.of_nat (String.length s), 11);
  env_format_score := fun _ => "0.91";
  env_video := fun p =>
    if String.eqb p "clip.mp4"
    then Some [ {| rows := 480; cols := 640 |}; {| rows := 480; cols := 640 |} ]
    else None;
  env_waitKey := fun _ => -1;
  env_promotion := ValueBased;
|}.

(** The same machine whose user's home directory is named like a model
    file. *)
Definition odd_home_env : Env := {|
  env_home := Some "/srv/yolo.h5";
  env_passwd := env_passwd demo_env;
  env_file := env_file demo_env;
  env_float := env_float demo_env;
  env_load_model := fun _ => Some {| out_depth := 24; num_outputs := 3 |};
  env_load_weights := env_load_weights demo_env;
  env_entropy := env_entropy demo_env;
  env_timer := env_timer demo_env;
  env_sess_run := env_sess_run demo_env;
  env_textsize := env_textsize demo_env;
  env_format_score := env_format_score demo_env;
  env_video := env_video demo_env;
  env_waitKey := env_waitKey demo_env;
  env_promotion := env_promotion demo_env;
|}.

(** The machine of [demo_env] on which [q] is pressed, with a modifier
    bit set, at the second poll. *)
Definition demo_env_q : Env := {|
  env_home := env_home demo_env;
  env_passwd := env_passwd demo_env;
  env_file := env_file demo_env;
  env_float := env_float demo_env;
  env_load_model := env_load_model demo_env;
  env_load_weights := env_load_weights demo_env;
  env_entropy := env_entropy demo_env;
  env_timer := env_timer demo_env;
  env_sess_run := env_sess_run demo_env;
  env_textsize := env_textsize demo_env;
  env_format_score := env_format_score demo_env;
  env_video := env_video demo_env;
  env_waitKey := fun n => if (n =? 1)%nat then 1048689 else -1;
  env_promotion := env_promotion demo_env;
|}.

(** The class names and anchors that [demo_env] holds in its files. *)
Definition demo_class_names : list string := ["person"; "bicycle"; "cat"].

Definition demo_anchors : list (Q * Q) :=
  [ (10, 13); (16, 30); (33, 23); (30, 61); (62, 45); (59, 119);
    (116, 90); (156, 198); (373, 326) ]%Q.

(** The detector that [demo_env] constructs from the defaults. *)
Definition demo_detector : YOLO :=
  {| __dict__ := init_dict ∅; class_names := demo_class_names;
     anchors := demo_anchors;
     yolo_model := Loaded {| out_depth := 24; num_outputs := 3 |};
     colors := [(0, 0, 255); (0, 255, 0); (255, 0, 0)] |}.

(** A fresh process on the stand-in generator, seeded by the caller with 42. *)
Definition demo_world : @World lcg_random :=
  {| w_trace := []; w_rng := @init_by_seed lcg_random 42;
     w_timer := 0; w_reseeds := 0 |}.

(** * Properties *)

(** ** Floating point *)

Lemma rne_comp (x y : Q) : x == y -> rne x = rne y.
Proof.
  intros E. unfold rne. rewrite (Qfloor_comp _ _ E).
  assert (E' : (x - inject_Z (Qfloor y) == y - inject_Z (Qfloor y))%Q) by (rewrite E; reflexivity).
  rewrite (Qcompare_comp _ _ E' _ _ (Qeq_refl _)). reflexivity.
Qed.

Lemma rne_Z (z : Z) : rne (inject_Z z) = z.
Proof.
  unfold rne. rewrite Qfloor_Z.
  destruct (Qcompare_spec (inject_Z z - inject_Z z) (1 # 2)) as [E | E | E]; try lra.
  reflexivity.
Qed.

Lemma rne_bounds (x : Q) : Qfloor x <= rne x <= Qfloor x + 1.
Proof.
  unfold rne. destruct (_ ?= _)%Q; [destruct (Z.even _) | |]; lia.
Qed.

Lemma rne_mono (x y : Q) : (x <= y)%Q -> rne x <= rne y.
Proof.
  intros L. pose proof (Qfloor_resp_le _ _ L) as F.
  destruct (Z.eq_dec (Qfloor x) (Qfloor y)) as [E | N].
  - unfold rne. rewrite E.
    destruct (Qcompare_spec (x - inject_Z (Qfloor y)) (1 # 2)) as [A | A | A];
      destruct (Qcompare_spec (y - inject_Z (Qfloor y)) (1 # 2)) as [B | B | B];
      try destruct (Z.even _); try lia; lra.
  - pose proof (rne_bounds x). pose proof (rne_bounds y). lia.
Qed.

Lemma pow2_pos (k : Z) : 0 <= k -> 0 < 2 ^ k.
Proof. intros. apply Z.pow_pos_nonneg; lia. Qed.

Lemma inject_Z_pos (c : Z) : 0 < c -> (0 < inject_Z c)%Q.
Proof. intros. rewrite <- (Zlt_Qlt 0). assumption. Qed.

Lemma Qdiv_le_mono (x y c : Q) : (0 < c)%Q -> (x <= y)%Q -> (x / c <= y / c)%Q.
Proof.
  intros C L. apply Qle_shift_div_l; [assumption |].
  unfold Qdiv. rewrite <- Qmult_assoc, (Qmult_comm (/ c)), Qmult_inv_r by lra. lra.
Qed.

Lemma Qfloor_upper (y : Q) : (y <= inject_Z (Qfloor y + 1))%Q.
Proof. pose proof (Qlt_floor y). apply Qlt_le_weak. assumption. Qed.

Section RoundUnits.
Variable p : Z.
Hypothesis p_pos : 0 < p.

Lemma round_units_unfold (y : Q) :
  round_units p y = rne (y / inject_Z (2 ^ shift_of p y)) * 2 ^ shift_of p y.
Proof. reflexivity. Qed.

Lemma shift_of_mono (y y' : Q) : (y <= y')%Q -> shift_of p y <= shift_of p y'.
Proof.
  intros L. unfold shift_of.
  pose proof (Z.log2_le_mono _ _ (Qfloor_resp_le _ _ L)). lia.
Qed.

Lemma round_units_upper (y : Q) :
  (0 <= y)%Q -> round_units p y <= 2 ^ (p + shift_of p y).
Proof.
  intros Y. rewrite round_units_unfold.
  set (sh := shift_of p y).
  assert (Hsh : 0 <= sh) by (unfold sh, shift_of; lia).
  assert (Hl : Z.log2 (Qfloor y) + 1 <= p + sh) by (unfold sh, shift_of; lia).
  assert (Ht : 0 <= Qfloor y) by (rewrite <- (Qfloor_Z 0); apply Qfloor_resp_le; exact Y).
  assert (Hy : (y <= inject_Z (2 ^ p) * inject_Z (2 ^ sh))%Q).
  { rewrite <- inject_Z_mult, <- Z.pow_add_r by lia.
    eapply Qle_trans; [apply Qfloor_upper |]. rewrite <- Zle_Qle.
    assert (Qfloor y + 1 <= 2 ^ (Z.log2 (Qfloor y) + 1)).
    { destruct (Z.eq_dec (Qfloor y) 0) as [E | N].
      - rewrite E. cbn. lia.
      - pose proof (Z.log2_spec (Qfloor y) ltac:(lia)) as S. unfold Z.succ in S. lia. }
    pose proof (Z.pow_le_mono_r 2 (Z.log2 (Qfloor y) + 1) (p + sh) ltac:(lia) Hl). lia. }
  assert (R : rne (y / inject_Z (2 ^ sh)) <= 2 ^ p).
  { rewrite <- (rne_Z (2 ^ p)). apply rne_mono.
    apply Qle_shift_div_r; [apply inject_Z_pos, pow2_pos; exact Hsh | exact Hy]. }
  rewrite Z.pow_add_r by lia.
  apply Z.mul_le_mono_nonneg_r; [pose proof (pow2_pos sh Hsh); lia | exact R].
Qed.

Lemma round_units_lower (y : Q) :
  0 < shift_of p y -> 2 ^ (p - 1 + shift_of p y) <= round_units p y.
Proof.
  intros S. rewrite round_units_unfold.
  set (sh := shift_of p y) in *.
  assert (Hl : Z.log2 (Qfloor y) = p - 1 + sh) by (unfold sh, shift_of in *; lia).
  assert (Ht : 0 < Qfloor y).
  { destruct (Z.lt_trichotomy (Qfloor y) 0) as [N | [E | P]]; [| | exact P].
    - rewrite Z.log2_nonpos in Hl by lia. lia.
    - rewrite E in Hl. cbn in Hl. lia. }
  assert (Hy : (inject_Z (2 ^ (p - 1)) * inject_Z (2 ^ sh) <= y)%Q).
  { rewrite <- inject_Z_mult, <- Z.pow_add_r, <- Hl by lia.
    eapply Qle_trans; [| apply Qfloor_le]. rewrite <- Zle_Qle.
    apply (Z.log2_spec (Qfloor y) Ht). }
  assert (R : 2 ^ (p - 1) <= rne (y / inject_Z (2 ^ sh))).
  { rewrite <- (rne_Z (2 ^ (p - 1))) at 1. apply rne_mono.
    apply Qle_shift_div_l; [apply inject_Z_pos, pow2_pos; lia | exact Hy]. }
  rewrite Z.pow_add_r by lia.
  apply Z.mul_le_mono_nonneg_r; [pose proof (pow2_pos sh ltac:(lia)); lia | exact R].
Qed.

Lemma round_units_mono (y y' : Q) :
  (0 <= y)%Q -> (y <= y')%Q -> round_units p y <= round_units p y'.
Proof.
  intros Y L.
  pose proof (shift_of_mono y y' L) as S.
  assert (Hsh : 0 <= shift_of p y) by (unfold shift_of; lia).
  destruct (Z.eq_dec (shift_of p y) (shift_of p y')) as [E | N].
  - rewrite !round_units_unfold, <- E.
    apply Z.mul_le_mono_nonneg_r; [pose proof (pow2_pos _ Hsh); lia |].
    apply rne_mono, Qdiv_le_mono; [apply inject_Z_pos, pow2_pos; exact Hsh | exact L].
  - pose proof (round_units_upper y Y) as A.
    pose proof (round_units_lower y' ltac:(lia)) as B.
    pose proof (Z.pow_le_mono_r 2 (p + shift_of p y) (p - 1 + shift_of p y') ltac:(lia) ltac:(lia)).
    lia.
Qed.

Lemma round_units_comp (y y' : Q) : y == y' -> round_units p y = round_units p y'.
Proof.
  intros E. unfold round_units, shift_of. rewrite (Qfloor_comp _ _ E).
  f_equal. apply rne_comp. rewrite E. reflexivity.
Qed.

Lemma round_units_exact (a c : Z) :
  0 <= a < 2 ^ p -> 0 <= c -> round_units p (inject_Z (a * 2 ^ c)) = a * 2 ^ c.
Proof.
  intros A C. rewrite round_units_unfold. unfold shift_of. rewrite Qfloor_Z.
  destruct (Z.eq_dec a 0) as [-> | N].
  - cbn [Z.mul Z.log2]. replace (Z.max 0 (0 - (p - 1))) with 0 by lia.
    rewrite (rne_comp _ 0) by (cbn; reflexivity). reflexivity.
  - rewrite Z.log2_mul_pow2 by lia.
    pose proof (proj1 (Z.log2_lt_pow2 a p ltac:(lia)) ltac:(lia)) as L.
    pose proof (Z.log2_nonneg a) as L0.
    set (sh := Z.max 0 (c + Z.log2 a - (p - 1))).
    assert (Hsh : 0 <= sh <= c) by (unfold sh; lia).
    assert (E : a * 2 ^ c = a * 2 ^ (c - sh) * 2 ^ sh).
    { rewrite <- Z.mul_assoc, <- Z.pow_add_r by lia. do 2 f_equal. lia. }
    rewrite (rne_comp _ (inject_Z (a * 2 ^ (c - sh)))).
    + rewrite rne_Z. symmetry. exact E.
    + rewrite E at 1. rewrite inject_Z_mult. apply Qdiv_mult_l.
      pose proof (inject_Z_pos _ (pow2_pos sh ltac:(lia))). lra.
Qed.

Lemma round_units_nonneg (y : Q) : (0 <= y)%Q -> 0 <= round_units p y.
Proof.
  intros Y. rewrite <- (round_units_exact 0 0) at 1; [| pose proof (pow2_pos p); lia | lia].
  change (inject_Z (0 * 2 ^ 0)) with 0%Q.
  apply round_units_mono; [lra | exact Y].
Qed.

End RoundUnits.

Section RoundFloat.
Variables p u : Z.
Hypothesis p_pos : 0 < p.
Hypothesis u_nonneg : 0 <= u.

Lemma unit_pos : (0 < inject_Z (2 ^ u))%Q.
Proof. apply inject_Z_pos, pow2_pos, u_nonneg. Qed.

Lemma round_float_comp (x y : Q) : x == y -> round_float p u x = round_float p u y.
Proof.
  intros E. unfold round_float. rewrite (Qleb_comp _ _ (Qeq_refl 0) _ _ E).
  rewrite (round_units_comp p (x * _) (y * _)) by (rewrite E; reflexivity).
  rewrite (round_units_comp p (- x * _) (- y * _)) by (rewrite E; reflexivity).
  reflexivity.
Qed.

Lemma round_float_mono (x y : Q) : (x <= y)%Q -> (round_float p u x <= round_float p u y)%Q.
Proof.
  intros L. pose proof unit_pos as HU. unfold round_float.
  set (U := inject_Z (2 ^ u)) in *.
  destruct (Qle_bool 0 x) eqn:X, (Qle_bool 0 y) eqn:Y.
  - apply Qle_bool_iff in X. apply Qdiv_le_mono; [exact HU |].
    rewrite <- Zle_Qle. apply (round_units_mono p p_pos); nra.
  - apply Qle_bool_iff in X. assert (~ (0 <= y)%Q) by (rewrite <- Qle_bool_iff, Y; discriminate). lra.
  - assert (Nx : ~ (0 <= x)%Q) by (rewrite <- Qle_bool_iff, X; discriminate).
    apply Qle_bool_iff in Y.
    pose proof (round_units_nonneg p p_pos (- x * U) ltac:(nra)) as A.
    pose proof (round_units_nonneg p p_pos (y * U) ltac:(nra)) as B.
    rewrite Zle_Qle in A, B. change (inject_Z 0) with 0%Q in A, B.
    assert (0 <= inject_Z (round_units p (- x * U)) / U)%Q
      by (apply Qle_shift_div_l; [exact HU | rewrite Qmult_0_l; exact A]).
    assert (0 <= inject_Z (round_units p (y * U)) / U)%Q
      by (apply Qle_shift_div_l; [exact HU | rewrite Qmult_0_l; exact B]).
    lra.
  - assert (Nx : ~ (0 <= x)%Q) by (rewrite <- Qle_bool_iff, X; discriminate).
    assert (Ny : ~ (0 <= y)%Q) by (rewrite <- Qle_bool_iff, Y; discriminate).
    apply Qopp_le_compat, Qdiv_le_mono; [exact HU |].
    rewrite <- Zle_Qle. apply (round_units_mono p p_pos); nra.
Qed.

Lemma round_float_exact (a c : Z) :
  Z.abs a < 2 ^ p -> 0 <= c ->
  round_float p u (inject_Z (a * 2 ^ c) / inject_Z (2 ^ u)) == inject_Z (a * 2 ^ c) / inject_Z (2 ^ u).
Proof.
  intros A C. pose proof unit_pos as HU. unfold round_float.
  set (U := inject_Z (2 ^ u)) in *.
  pose proof (pow2_pos c C) as P2.
  destruct (Qle_bool 0 (inject_Z (a * 2 ^ c) / U)) eqn:X.
  - apply Qle_bool_iff in X.
    assert (0 <= a).
    { destruct (Z.le_gt_cases 0 a) as [G | G]; [exact G | exfalso].
      assert (inject_Z (a * 2 ^ c) / U < 0)%Q; [| lra].
      apply Qlt_shift_div_r; [exact HU |]. rewrite Qmult_0_l, <- (Zlt_Qlt _ 0). nia. }
    rewrite (round_units_comp p _ (inject_Z (a * 2 ^ c))).
    + rewrite round_units_exact by lia. reflexivity.
    + unfold Qdiv. rewrite <- Qmult_assoc, (Qmult_comm (/ U)), Qmult_inv_r by lra. lra.
  - assert (Nx : ~ (0 <= inject_Z (a * 2 ^ c) / U)%Q) by (rewrite <- Qle_bool_iff, X; discriminate).
    assert (a < 0).
    { destruct (Z.le_gt_cases 0 a) as [G | G]; [exfalso | exact G].
      apply Nx, Qle_shift_div_l; [exact HU |]. rewrite Qmult_0_l, <- (Zle_Qle 0). nia. }
    rewrite (round_units_comp p _ (inject_Z (- a * 2 ^ c))).
    + rewrite round_units_exact by lia.
      rewrite Z.mul_opp_l, inject_Z_opp. field. lra.
    + rewrite Z.mul_opp_l, inject_Z_opp. field. lra.
Qed.

(** Whole numbers and halves of at most [p] bits are representable. *)
Lemma round_float_Z (z : Z) :
  Z.abs z < 2 ^ p -> round_float p u (inject_Z z) == inject_Z z.
Proof.
  intros A. pose proof unit_pos as HU.
  assert (E : inject_Z z == inject_Z (z * 2 ^ u) / inject_Z (2 ^ u)).
  { rewrite inject_Z_mult. symmetry. apply Qdiv_mult_l. lra. }
  rewrite (round_float_comp _ _ E), round_float_exact by lia.
  symmetry. exact E.
Qed.

Lemma round_float_half (z : Z) :
  0 < u -> Z.abs z < 2 ^ p -> round_float p u (inject_Z z / 2) == inject_Z z / 2.
Proof.
  intros Hu A. pose proof unit_pos as HU.
  assert (E : inject_Z z / 2 == inject_Z (z * 2 ^ (u - 1)) / inject_Z (2 ^ u)).
  { replace (2 ^ u) with (2 ^ (u - 1) * 2)
      by (rewrite Z.mul_comm, <- Z.pow_succ_r by lia; f_equal; lia).
    pose proof (inject_Z_pos _ (pow2_pos (u - 1) ltac:(lia))).
    rewrite !inject_Z_mult. change (inject_Z 2) with 2%Q. field. lra. }
  rewrite (round_float_comp _ _ E), round_float_exact by lia.
  symmetry. exact E.
Qed.

End RoundFloat.

(** *** The two formats *)

Lemma fl64_comp (x y : Q) : (x == y)%Q -> fl64 x = fl64 y.
Proof. apply round_float_comp. Qed.

Lemma fl64_mono (x y : Q) : (x <= y)%Q -> (fl64 x <= fl64 y)%Q.
Proof. apply round_float_mono; lia. Qed.

Lemma fl64_Z (z : Z) : Z.abs z < 2 ^ 53 -> (fl64 (inject_Z z) == inject_Z z)%Q.
Proof. apply round_float_Z; lia. Qed.

Lemma fl32_comp (x y : Q) : (x == y)%Q -> fl32 x = fl32 y.
Proof. apply round_float_comp. Qed.

Lemma fl32_mono (x y : Q) : (x <= y)%Q -> (fl32 x <= fl32 y)%Q.
Proof. apply round_float_mono; lia. Qed.

Lemma fl32_Z (z : Z) : Z.abs z < 2 ^ 24 -> (fl32 (inject_Z z) == inject_Z z)%Q.
Proof. apply round_float_Z; lia. Qed.

Lemma fl32_half (z : Z) :
  Z.abs z < 2 ^ 24 -> (fl32 (inject_Z z / 2) == inject_Z z / 2)%Q.
Proof. apply round_float_half; lia. Qed.

Lemma fl64_half (z : Z) :
  Z.abs z < 2 ^ 53 -> (fl64 (inject_Z z / 2) == inject_Z z / 2)%Q.
Proof. apply round_float_half; lia. Qed.

(** Rounding does not leave an interval whose ends are whole numbers of
    at most 53 bits. *)
Lemma fl64_between (a b : Z) (x : Q) :
  Z.abs a < 2 ^ 53 -> Z.abs b < 2 ^ 53 ->
  (inject_Z a <= x <= inject_Z b)%Q -> (inject_Z a <= fl64 x <= inject_Z b)%Q.
Proof.
  intros Ha Hb [L U]. split.
  - rewrite <- (fl64_Z a Ha). apply fl64_mono, L.
  - rewrite <- (fl64_Z b Hb). apply fl64_mono, U.
Qed.

Lemma fl64_unit (x : Q) : (0 <= x <= 1)%Q -> (0 <= fl64 x <= 1)%Q.
Proof. apply (fl64_between 0 1); reflexivity. Qed.


(** ** Configuration *)

Lemma known_fields_are_defaults (n : string) :
  n ∉ known_fields -> _defaults !! n = None.
Proof.
  intros Hn. unfold _defaults.
  apply not_elem_of_list_to_map_1. exact Hn.
Qed.

Lemma defaults_are_known_fields (n : string) :
  n ∈ known_fields -> is_Some (_defaults !! n).
Proof.
  unfold known_fields. rewrite !elem_of_cons, elem_of_nil.
  intros H. repeat (destruct H as [-> | H]; [by eexists |]). done.
Qed.

Lemma init_dict_lookup (kwargs : gmap string PyVal) (n : string) :
  init_dict kwargs !! n =
    match kwargs !! n with
    | Some v => Some v
    | None => _defaults !! n
    end.
Proof.
  unfold init_dict, dict_update.
  rewrite (right_id_L ∅ (∪) _defaults), lookup_union.
  destruct (kwargs !! n) as [v|], (_defaults !! n) as [v0|]; reflexivity.
Qed.

(** ** Running the monad *)

Section MonadFacts.
Context {NR : NumpyRandom}.

Lemma bind_ok {A B} (m : M A) (k : A -> M B) w a w1 :
  m w = (Ok a, w1) -> bind m k w = k a w1.
Proof. unfold bind. intros ->. reflexivity. Qed.

Lemma bind_raise {A B} (m : M A) (k : A -> M B) w e w1 :
  m w = (Raise e, w1) -> bind m k w = (Raise e, w1).
Proof. unfold bind. intros ->. reflexivity. Qed.

Lemma bind_Ok_inv {A B} (m : M A) (k : A -> M B) w b w' :
  bind m k w = (Ok b, w') ->
  exists a w1, m w = (Ok a, w1) /\ k a w1 = (Ok b, w').
Proof.
  unfold bind. destruct (m w) as [[a|e] w1]; intros H.
  - exists a, w1. split; [reflexivity | exact H].
  - discriminate H.
Qed.

Lemma ret_Ok_inv {A} (a b : A) w w' :
  ret a w = (Ok b, w') -> a = b /\ w = w'.
Proof. unfold ret. intros H. injection H as -> ->. split; reflexivity. Qed.
End MonadFacts.

Ltac invert_binds H :=
  repeat match type of H with
         | bind _ _ _ = (Ok _, _) =>
             let a := fresh "a" in
             let w := fresh "w" in
             let E := fresh "E" in
             apply bind_Ok_inv in H as (a & w & E & H)
         end.

(** *** What construction reads of the dictionary *)

Lemma other_entries_lookup (d : gmap string PyVal) (n : string) :
  other_entries d !! n
  = if bool_decide (n ∈ assigned_attributes) then None else d !! n.
Proof.
  unfold other_entries. induction assigned_attributes as [| a l IH]; [reflexivity |].
  cbn [foldr]. rewrite lookup_delete.
  destruct (decide (a = n)) as [-> | Hne].
  - rewrite bool_decide_eq_true_2 by (apply elem_of_cons; left; reflexivity).
    reflexivity.
  - rewrite IH. destruct (decide (n ∈ l)) as [Hin | Hout].
    + rewrite (bool_decide_eq_true_2 (n ∈ l)) by exact Hin.
      rewrite bool_decide_eq_true_2 by (apply elem_of_cons; right; exact Hin).
      reflexivity.
    + rewrite (bool_decide_eq_false_2 (n ∈ l)) by exact Hout.
      rewrite bool_decide_eq_false_2; [reflexivity |].
      rewrite elem_of_cons. intros [-> | Hin]; [exact (Hne eq_refl) | exact (Hout Hin)].
Qed.

Lemma init_dict_insert (kwargs : gmap string PyVal) (n : string) (v : PyVal) :
  init_dict (<[n:=v]> kwargs) = <[n:=v]> (init_dict kwargs).
Proof. unfold init_dict, dict_update. symmetry. apply insert_union_l. Qed.

Lemma other_entries_insert (d : gmap string PyVal) (n : string) (v : PyVal) :
  other_entries (<[n:=v]> d)
  = if bool_decide (n ∈ assigned_attributes) then other_entries d
    else <[n:=v]> (other_entries d).
Proof.
  apply map_eq. intros k. rewrite other_entries_lookup.
  destruct (bool_decide (n ∈ assigned_attributes)) eqn:Hn.
  - rewrite other_entries_lookup.
    destruct (bool_decide (k ∈ assigned_attributes)) eqn:Hk; [reflexivity |].
    apply lookup_insert_ne. intros ->. congruence.
  - rewrite !lookup_insert. destruct (decide (n = k)) as [-> | Hne].
    + rewrite Hn. reflexivity.
    + rewrite other_entries_lookup. reflexivity.
Qed.

Section OverrideFacts.
Context {NR : NumpyRandom}.
Variable env : Env.
Variables (d : gmap string PyVal) (n : string) (v : PyVal).

(** An entry under a name that is neither a known field nor a method
    that the constructor calls changes nothing of what the three methods
    do. *)
Hypothesis n_unknown : n ∉ known_fields.
Hypothesis n_no_method : n ∉ called_methods.

Lemma unknown_name_differs (k : string) :
  k ∈ known_fields ∨ k ∈ called_methods -> n ≠ k.
Proof. intros [Hk | Hk] ->; [exact (n_unknown Hk) | exact (n_no_method Hk)]. Qed.

Lemma unread_lookup (k : string) :
  k ∈ known_fields ∨ k ∈ called_methods -> <[n:=v]> d !! k = d !! k.
Proof. intros Hk. apply lookup_insert_ne, unknown_name_differs, Hk. Qed.

Ltac read_name :=
  rewrite unread_lookup
    by (unfold known_fields, called_methods; rewrite !elem_of_cons; tauto).

Lemma call_get_class_unread :
  call_method (<[n:=v]> d) "_get_class" (_get_class env (<[n:=v]> d))
  = call_method d "_get_class" (_get_class env d).
Proof. unfold call_method, _get_class, attr_str. repeat read_name. reflexivity. Qed.

Lemma call_get_anchors_unread :
  call_method (<[n:=v]> d) "_get_anchors" (_get_anchors env (<[n:=v]> d))
  = call_method d "_get_anchors" (_get_anchors env d).
Proof. unfold call_method, _get_anchors, attr_str. repeat read_name. reflexivity. Qed.

Lemma call_generate_unread (cn : list string) (an : list (Q * Q)) :
  call_method (<[n:=v]> d) "generate" (generate env (<[n:=v]> d) cn an)
  = call_method d "generate" (generate env d cn an).
Proof.
  unfold call_method, generate, resolve_model, gpu_num_ge_2, attr_str.
  repeat read_name. reflexivity.
Qed.

End OverrideFacts.




(** ** Rendering: clamping a box *)

Lemma astype_int32_fits (z : Z) : - 2 ^ 31 <= z < 2 ^ 31 -> astype_int32 z = z.
Proof.
  intros H. unfold astype_int32.
  destruct (Z.leb_spec (- 2 ^ 31) z), (Z.ltb_spec z (2 ^ 31)); cbn [andb]; lia.
Qed.

Lemma astype_int32_overflow (z : Z) :
  ~ (- 2 ^ 31 <= z < 2 ^ 31) -> astype_int32 z = - 2 ^ 31.
Proof.
  intros H. unfold astype_int32.
  destruct (Z.leb_spec (- 2 ^ 31) z), (Z.ltb_spec z (2 ^ 31)); cbn [andb]; lia.
Qed.

Lemma astype_int32_cases (z : Z) :
  (- 2 ^ 31 <= z < 2 ^ 31 /\ astype_int32 z = z) \/ astype_int32 z = - 2 ^ 31.
Proof.
  destruct (Z_le_dec (- 2 ^ 31) z), (Z_lt_dec z (2 ^ 31));
    first [ left; split; [lia | apply astype_int32_fits; lia]
          | right; apply astype_int32_overflow; lia ].
Qed.

Lemma half_sum_whole (z : Z) : (inject_Z z + (1 # 2) == inject_Z (2 * z + 1) / 2)%Q.
Proof. rewrite inject_Z_plus, inject_Z_mult. change (inject_Z 2) with 2%Q. change (inject_Z 1) with 1%Q. field. Qed.

Lemma Qfloor_half_sum (z : Z) : Qfloor (inject_Z z + (1 # 2)) = z.
Proof.
  unfold Qfloor, Qplus, inject_Z. cbn [Qnum Qden].
  replace (z * 2 + 1 * 1) with (1 + z * 2) by ring.
  rewrite Z.div_add by discriminate. reflexivity.
Qed.

Section SumFormat.
Variable pr : Promotion.

Lemma sum_format_comp (x y : Q) : (x == y)%Q -> sum_format pr x = sum_format pr y.
Proof. destruct pr; [apply fl64_comp | apply fl32_comp]. Qed.

Lemma sum_format_mono (x y : Q) :
  (x <= y)%Q -> (sum_format pr x <= sum_format pr y)%Q.
Proof. destruct pr; [apply fl64_mono | apply fl32_mono]. Qed.

Lemma sum_format_Z (z : Z) :
  Z.abs z < 2 ^ 24 -> (sum_format pr (inject_Z z) == inject_Z z)%Q.
Proof. intros H. destruct pr; [apply fl64_Z | apply fl32_Z]; lia. Qed.

Lemma sum_format_half (z : Z) :
  Z.abs z < 2 ^ 24 -> (sum_format pr (inject_Z z / 2) == inject_Z z / 2)%Q.
Proof. intros H. destruct pr; [apply fl64_half | apply fl32_half]; lia. Qed.

(** Below 2^23 the sum [x + 0.5], once rounded to its format, lies
    between the two whole numbers around the exact sum, so the rounded
    edge is [x] rounded half up, or one more. *)
Lemma round_half_up_bracket (x : Q) :
  (inject_Z (- 2 ^ 23) <= x)%Q -> (x < inject_Z (2 ^ 23))%Q ->
  Qfloor (x + (1 # 2)) <= round_half_up pr x <= Qfloor (x + (1 # 2)) + 1.
Proof.
  intros Hlo Hhi. set (k := Qfloor (x + (1 # 2))).
  assert (Hk : - 2 ^ 23 <= k <= 2 ^ 23).
  { split.
    - rewrite <- (Qfloor_half_sum (- 2 ^ 23)). apply Qfloor_resp_le. lra.
    - rewrite <- (Qfloor_half_sum (2 ^ 23)). apply Qfloor_resp_le. lra. }
  pose proof (Qfloor_le (x + (1 # 2))) as L. fold k in L.
  pose proof (Qfloor_upper (x + (1 # 2))) as U. fold k in U.
  apply sum_format_mono in L, U.
  rewrite sum_format_Z in L by lia. rewrite sum_format_Z in U by lia.
  apply Qfloor_resp_le in L, U. rewrite Qfloor_Z in L, U.
  unfold round_half_up, np_floor_int32. rewrite astype_int32_fits; lia.
Qed.

(** Where the sum [x + 0.5] needs no rounding, the edge is rounded half
    up. *)
Lemma round_half_up_exact (x : Q) :
  (sum_format pr (x + (1 # 2)) == x + (1 # 2))%Q ->
  - 2 ^ 31 <= Qfloor (x + (1 # 2)) < 2 ^ 31 ->
  round_half_up pr x = Qfloor (x + (1 # 2)).
Proof.
  intros E R. unfold round_half_up, np_floor_int32.
  rewrite (Qfloor_comp _ _ E). apply astype_int32_fits, R.
Qed.

Lemma round_half_up_whole (z : Z) :
  Z.abs z < 2 ^ 23 -> round_half_up pr (inject_Z z) = z.
Proof.
  intros Hz. rewrite round_half_up_exact; [apply Qfloor_half_sum | | rewrite Qfloor_half_sum; lia].
  rewrite (sum_format_comp _ _ (half_sum_whole z)), sum_format_half by lia.
  symmetry. apply half_sum_whole.
Qed.

Lemma round_half_up_half (z : Z) :
  Z.abs z < 2 ^ 23 -> round_half_up pr (inject_Z z + (1 # 2)) = z + 1.
Proof.
  intros Hz.
  assert (E : (inject_Z z + (1 # 2) + (1 # 2) == inject_Z (z + 1))%Q)
    by (rewrite inject_Z_plus; change (inject_Z 1) with 1%Q; lra).
  rewrite round_half_up_exact; rewrite ?(Qfloor_comp _ _ E), ?Qfloor_Z; [reflexivity | | lia].
  rewrite (sum_format_comp _ _ E), sum_format_Z by lia. symmetry. exact E.
Qed.

(** A later edge is not rounded to less, as long as it is not thrown out
    of the 32-bit range. *)
Lemma round_half_up_mono (x y : Q) :
  (x <= y)%Q -> 0 <= round_half_up pr y -> round_half_up pr x <= round_half_up pr y.
Proof.
  intros H Hy. unfold round_half_up, np_floor_int32 in *.
  assert (L : Qfloor (sum_format pr (x + (1 # 2))) <= Qfloor (sum_format pr (y + (1 # 2))))
    by (apply Qfloor_resp_le, sum_format_mono; lra).
  destruct (astype_int32_cases (Qfloor (sum_format pr (y + (1 # 2))))) as [[Ry Ey] | Ey];
    [| lia].
  destruct (astype_int32_cases (Qfloor (sum_format pr (x + (1 # 2))))) as [[Rx Ex] | Ex]; lia.
Qed.

End SumFormat.

(** *** Double-precision sums of single-precision coordinates *)

Lemma Qdiv_scale (m D K : Z) :
  0 < D -> 0 < K -> (inject_Z (m * K) / inject_Z (D * K) == inject_Z m / inject_Z D)%Q.
Proof.
  intros HD HK. pose proof (inject_Z_pos D HD). pose proof (inject_Z_pos K HK).
  rewrite !inject_Z_mult. field. split; lra.
Qed.

(** A [float32] is a whole number of at most 25 bits times a power of
    two, in units of the smallest subnormal. *)
Lemma fl32_repr (x : Q) :
  (fl32 x == x)%Q ->
  exists a c : Z,
    Z.abs a <= 2 ^ 24 /\ 0 <= c /\ (x == inject_Z (a * 2 ^ c) / inject_Z (2 ^ 149))%Q.
Proof.
  unfold fl32, round_float. intros E.
  assert (Hbound : forall y : Q, (0 <= y)%Q ->
            0 <= rne (y / inject_Z (2 ^ shift_of 24 y)) <= 2 ^ 24).
  { intros y Hy.
    pose proof (round_units_upper 24 ltac:(lia) y Hy) as Hu.
    pose proof (round_units_nonneg 24 ltac:(lia) y Hy) as Hn.
    rewrite round_units_unfold in Hu, Hn.
    assert (Hsh : 0 <= shift_of 24 y) by (unfold shift_of; lia).
    pose proof (pow2_pos _ Hsh) as Hp.
    rewrite Z.pow_add_r in Hu by lia.
    split; [nia |]. apply (Z.mul_le_mono_pos_r _ _ _ Hp). exact Hu. }
  pose proof (unit_pos 149 ltac:(lia)) as HU.
  destruct (Qle_bool 0 x) eqn:X.
  - apply Qle_bool_iff in X.
    set (y := (x * inject_Z (2 ^ 149))%Q) in *.
    exists (rne (y / inject_Z (2 ^ shift_of 24 y))), (shift_of 24 y).
    assert (Hy : (0 <= y)%Q) by (unfold y; nra).
    split; [pose proof (Hbound y Hy); lia |].
    split; [unfold shift_of; lia |].
    symmetry. exact E.
  - assert (Nx : ~ (0 <= x)%Q) by (rewrite <- Qle_bool_iff, X; discriminate).
    set (y := (- x * inject_Z (2 ^ 149))%Q) in *.
    exists (- rne (y / inject_Z (2 ^ shift_of 24 y))), (shift_of 24 y).
    assert (Hy : (0 <= y)%Q) by (unfold y; nra).
    split; [pose proof (Hbound y Hy); lia |].
    split; [unfold shift_of; lia |].
    rewrite <- E at 1. rewrite Z.mul_opp_l, inject_Z_opp.
    rewrite (round_units_unfold 24). field. lra.
Qed.

Lemma Qfloor_halves (z : Z) : Qfloor (inject_Z z / 2) = z / 2.
Proof.
  unfold Qfloor, Qdiv, Qmult, Qinv, inject_Z. cbn [Qnum Qden].
  rewrite Z.mul_1_r. reflexivity.
Qed.

(** The double-precision sum of a [float32] and 0.5 has the floor of the
    exact sum, within the 32-bit range. *)
Lemma double_sum_floor (x : Q) :
  (fl32 x == x)%Q -> - 2 ^ 31 <= Qfloor (x + (1 # 2)) < 2 ^ 31 ->
  Qfloor (fl64 (x + (1 # 2))) = Qfloor (x + (1 # 2)).
Proof.
  intros Hx R. destruct (fl32_repr x Hx) as (a & c & Ha & Hc & E).
  destruct (Z_le_gt_dec 148 c) as [Hbig | Hsmall].
  - (* the coordinate is a whole number of halves *)
    set (m := a * 2 ^ (c - 148)).
    assert (E1 : (x == inject_Z m / 2)%Q).
    { rewrite E. unfold m.
      replace (a * 2 ^ c) with (a * 2 ^ (c - 148) * 2 ^ 148)
        by (rewrite <- Z.mul_assoc, <- Z.pow_add_r by lia; do 2 f_equal; lia).
      change (2 ^ 149) with (2 * 2 ^ 148).
      rewrite Qdiv_scale by (try apply pow2_pos; lia). reflexivity. }
    assert (E2 : (x + (1 # 2) == inject_Z (m + 1) / 2)%Q).
    { rewrite E1, inject_Z_plus. change (inject_Z 1) with 1%Q. field. }
    rewrite (Qfloor_comp _ _ E2), Qfloor_halves in R.
    rewrite (fl64_comp _ _ E2), (Qfloor_comp _ _ E2).
    apply Qfloor_comp, fl64_half. clearbody m.
    pose proof (Z.div_mod (m + 1) 2 ltac:(lia)).
    pose proof (Z.mod_pos_bound (m + 1) 2 ltac:(lia)). lia.
  - destruct (Z_le_gt_dec 122 c) as [Hmid | Htiny].
    + (* the sum has at most 28 bits *)
      set (b := a + 2 ^ (148 - c)).
      assert (Hb : Z.abs b < 2 ^ 53).
      { pose proof (Z.pow_le_mono_r 2 (148 - c) 26 ltac:(lia) ltac:(lia)).
        pose proof (pow2_pos (148 - c) ltac:(lia)). unfold b. lia. }
      assert (E2 : (x + (1 # 2) == inject_Z (b * 2 ^ (c + 925)) / inject_Z (2 ^ 1074))%Q).
      { rewrite E. unfold b.
        replace ((a + 2 ^ (148 - c)) * 2 ^ (c + 925))
          with ((a * 2 ^ c + 2 ^ 148) * 2 ^ 925).
        2:{ rewrite Z.pow_add_r by lia.
            replace (2 ^ 148) with (2 ^ (148 - c) * 2 ^ c)
              by (rewrite <- Z.pow_add_r by lia; f_equal; lia).
            ring. }
        change (2 ^ 1074) with (2 ^ 149 * 2 ^ 925).
        rewrite Qdiv_scale by (apply pow2_pos; lia).
        rewrite inject_Z_plus.
        assert (Hhalf : (inject_Z (2 ^ 148) / inject_Z (2 ^ 149) == 1 # 2)%Q)
          by (vm_compute; reflexivity).
        rewrite <- Hhalf. pose proof (unit_pos 149 ltac:(lia)). field. lra. }
      rewrite (fl64_comp _ _ E2), (Qfloor_comp _ _ E2).
      apply Qfloor_comp. apply (round_float_exact 53 1074); lia.
    + (* the coordinate is at most a sixteenth *)
      assert (Hn : - 2 ^ 145 <= a * 2 ^ c <= 2 ^ 145).
      { pose proof (Z.pow_le_mono_r 2 c 121 ltac:(lia) ltac:(lia)) as Hp.
        pose proof (pow2_pos c Hc) as Hp0.
        change (2 ^ 145) with (2 ^ 24 * 2 ^ 121).
        assert (Z.abs (a * 2 ^ c) <= 2 ^ 24 * 2 ^ 121); [| lia].
        rewrite Z.abs_mul, (Z.abs_eq (2 ^ c)) by lia.
        apply Z.mul_le_mono_nonneg; lia. }
      pose proof (unit_pos 149 ltac:(lia)) as HU.
      assert (Hlo : (- (1 # 16) <= x)%Q).
      { rewrite E.
        assert (H16 : (inject_Z (- 2 ^ 145) / inject_Z (2 ^ 149) == - (1 # 16))%Q)
          by (vm_compute; reflexivity).
        rewrite <- H16. apply Qdiv_le_mono; [exact HU |]. rewrite <- Zle_Qle. lia. }
      assert (Hhi : (x <= 1 # 16)%Q).
      { rewrite E.
        assert (H16 : (inject_Z (2 ^ 145) / inject_Z (2 ^ 149) == 1 # 16)%Q)
          by (vm_compute; reflexivity).
        rewrite <- H16. apply Qdiv_le_mono; [exact HU |]. rewrite <- Zle_Qle. lia. }
      assert (F7 : (fl64 (7 # 16) == 7 # 16)%Q) by (vm_compute; reflexivity).
      assert (F9 : (fl64 (9 # 16) == 9 # 16)%Q) by (vm_compute; reflexivity).
      assert (L : (7 # 16 <= fl64 (x + (1 # 2)))%Q)
        by (rewrite <- F7; apply fl64_mono; lra).
      assert (U : (fl64 (x + (1 # 2)) <= 9 # 16)%Q)
        by (rewrite <- F9; apply fl64_mono; lra).
      assert (L' : (7 # 16 <= x + (1 # 2))%Q) by lra.
      assert (U' : (x + (1 # 2) <= 9 # 16)%Q) by lra.
      apply Qfloor_resp_le in L, U, L', U'.
      change (Qfloor (7 # 16)) with 0 in L, L'.
      change (Qfloor (9 # 16)) with 0 in U, U'. lia.
Qed.

(** Under the promotion of NumPy 1 every edge in the 32-bit range is
    rounded half up. *)
Lemma round_half_up_value_based (x : Q) :
  (fl32 x == x)%Q -> - 2 ^ 31 <= Qfloor (x + (1 # 2)) < 2 ^ 31 ->
  round_half_up ValueBased x = Qfloor (x + (1 # 2)).
Proof.
  intros Hx R. unfold round_half_up, np_floor_int32, sum_format.
  rewrite (double_sum_floor x Hx R). apply astype_int32_fits, R.
Qed.

(** C7 (as amended).  Each edge [e] is rounded to [floor(e + 0.5)], the
    sum being a float of the format that NumPy chooses and the result a
    32-bit integer: below 2^23 in magnitude this is [e] rounded half up or
    one more; it is exactly [e] rounded half up where the sum needs no
    rounding (whole and half numbers among them) and, under the promotion
    rule of NumPy 1, for every single-precision edge in the 32-bit range;
    a result that does not fit in 32 bits becomes [-2^31].  Top and left
    are then raised to at least 0 and bottom and right lowered to at most
    the image height and width.  So the clamped top and left are never
    negative and the clamped bottom and right never exceed the height and
    the width (which they may equal); a box with whole-number edges
    already within those bounds is unchanged; and a top edge that rounds
    to a negative number becomes 0. *)
Theorem clamp_box_edges (pr : Promotion) (b_top b_left b_bottom b_right : Q)
    (image : Image) :
  exists t l b r : Z,
    clamp_box pr (b_top, b_left, b_bottom, b_right) image = (t, l, b, r)
    /\ t = Z.max 0 (round_half_up pr b_top)
    /\ l = Z.max 0 (round_half_up pr b_left)
    /\ b = Z.min (height image) (round_half_up pr b_bottom)
    /\ r = Z.min (width image) (round_half_up pr b_right)
    /\ Forall (fun e : Q =>
                 round_half_up pr e
                 = astype_int32
                     (Qfloor (match pr with
                              | ValueBased => fl64 (e + (1 # 2))
                              | WeakScalar => fl32 (e + (1 # 2))
                              end))
                 /\ ((inject_Z (- 2 ^ 23) <= e)%Q -> (e < inject_Z (2 ^ 23))%Q ->
                     Qfloor (e + (1 # 2)) <= round_half_up pr e
                       <= Qfloor (e + (1 # 2)) + 1)
                 /\ ((sum_format pr (e + (1 # 2)) == e + (1 # 2))%Q ->
                     - 2 ^ 31 <= Qfloor (e + (1 # 2)) < 2 ^ 31 ->
                     round_half_up pr e = Qfloor (e + (1 # 2)))
                 /\ (pr = ValueBased -> (fl32 e == e)%Q ->
                     - 2 ^ 31 <= Qfloor (e + (1 # 2)) < 2 ^ 31 ->
                     round_half_up pr e = Qfloor (e + (1 # 2)))
                 /\ (~ (- 2 ^ 31 <= Qfloor (sum_format pr (e + (1 # 2))) < 2 ^ 31) ->
                     round_half_up pr e = - 2 ^ 31))
              [b_top; b_left; b_bottom; b_right]
    /\ 0 <= t /\ 0 <= l /\ b <= height image /\ r <= width image
    /\ (round_half_up pr b_top < 0 -> t = 0)
    /\ (forall zt zl zb zr : Z,
          (b_top, b_left, b_bottom, b_right)
            = (inject_Z zt, inject_Z zl, inject_Z zb, inject_Z zr) ->
          Forall (fun z : Z => Z.abs z < 2 ^ 23) [zt; zl; zb; zr] ->
          0 <= zt -> 0 <= zl -> zb <= height image -> zr <= width image ->
          (t, l, b, r) = (zt, zl, zb, zr))
    /\ (forall z : Z,
          Z.abs z < 2 ^ 23 ->
          round_half_up pr (inject_Z z) = z
          /\ round_half_up pr (inject_Z z + (1 # 2)) = z + 1).
Proof.
  eexists _, _, _, _. split; [reflexivity |].
  do 4 (split; [reflexivity |]).
  split.
  { repeat apply Forall_cons_2; [.. | apply Forall_nil_2];
      (split; [destruct pr; reflexivity |]);
      (split; [apply round_half_up_bracket |]);
      (split; [apply round_half_up_exact |]);
      (split; [intros ->; apply round_half_up_value_based |]);
      intros H; unfold round_half_up, np_floor_int32;
      apply astype_int32_overflow, H. }
  repeat (split; [lia |]).
  split.
  - intros zt zl zb zr [= -> -> -> ->] Hfit Ht Hl Hb Hr.
    rewrite !Forall_cons in Hfit. destruct Hfit as (Ft & Fl & Fb & Fr & _).
    rewrite !round_half_up_whole by assumption.
    f_equal; [f_equal; [f_equal |] |]; lia.
  - intros z Hz. split; [apply round_half_up_whole | apply round_half_up_half]; exact Hz.
Qed.

Lemma clamp_box_edges_witness :
  exists t l b r : Z,
    clamp_box WeakScalar (-5, 21 # 2, 50, 60)%Q {| width := 100; height := 100 |}
      = (t, l, b, r)
    /\ t = 0 /\ (t, l, b, r) = (0, 11, 50, 60).
Proof.
  destruct (clamp_box_edges WeakScalar (-5) (21 # 2) 50 60
              {| width := 100; height := 100 |})
    as (t & l & b & r & E & Ht & Hl & Hb & Hr & _ & _ & _ & _ & _ & Hneg & _).
  exists t, l, b, r. split; [exact E |].
  assert (Htop : t = 0) by (apply Hneg; vm_compute; reflexivity).
  split; [exact Htop |].
  rewrite Ht, Hl, Hb, Hr. vm_compute. reflexivity.
Defined.

(** C7, as stated, fails: on an image 100 pixels high a bottom edge of 150
    is clamped to 100, which is not below the image height; a top edge of
    200 is not clamped at all; and where the sum is a single-precision
    float, the largest single-precision number below one half, which
    rounded half up is 0, becomes 1. *)
Lemma clamped_edge_reaches_dimension :
  let image := {| width := 100; height := 100 |} in
  (forall pr : Promotion,
     clamp_box pr (10, 10, 150, 50)%Q image = (10, 10, 100, 50)
     /\ (let '(_, _, b, _) := clamp_box pr (10, 10, 150, 50)%Q image in
         ~ (0 <= b < height image))
     /\ (let '(t, _, _, _) := clamp_box pr (200, 10, 250, 50)%Q image in
         t = 200 /\ ~ (0 <= t < height image)))
  /\ (let e := ((1 # 2) - (1 # 2 ^ 25))%Q in
      (fl32 e == e)%Q
      /\ Qfloor (e + (1 # 2)) = 0
      /\ (let '(t, _, _, _) := clamp_box WeakScalar (e, 10, 50, 50)%Q image in t = 1)).
Proof.
  cbn zeta. split.
  - intros pr. destruct pr.
    + split; [vm_compute; reflexivity |].
      split; [vm_compute; intros [_ H]; discriminate H |].
      vm_compute. split; [reflexivity | intros [_ H]; discriminate H].
    + split; [vm_compute; reflexivity |].
      split; [vm_compute; intros [_ H]; discriminate H |].
      vm_compute. split; [reflexivity | intros [_ H]; discriminate H].
  - vm_compute. repeat split; reflexivity.
Qed.

(** ** The frame-rate counter *)




(** ** Preprocessing *)

Section PreprocessFacts.
Context {NR : NumpyRandom}.
Variable env : Env.

Lemma call_letterbox_run (image : Image) (size : Z * Z) (w : World) :
  exists w',
    call_letterbox image size w = (Ok (letterbox_image image size), w')
    /\ w_trace w' = (w_trace w
                    ++ [EvLetterbox (width image) (height image) (fst size) (snd size)])%list.
Proof. eexists. split; reflexivity. Qed.

Lemma preprocess_fixed (d : gmap string PyVal) (image : Image) (w : World) (a b : Z) :
  size_setting d = Fixed (Some a) (Some b) ->
  preprocess d image w =
    if negb (a mod 32 =? 0) then (Raise (AssertionError multiples_msg), w)
    else if negb (b mod 32 =? 0) then (Raise (AssertionError multiples_msg), w)
    else call_letterbox image (b, a) w.
Proof.
  intros Hs. unfold preprocess. rewrite Hs.
  unfold bind, or_raise, ret, py_assert, raise.
  destruct (a mod 32 =? 0); [| reflexivity].
  destruct (b mod 32 =? 0); reflexivity.
Qed.

Lemma detect_image_preprocess_fails (self : YOLO) (image : Image) (w w1 : World) e :
  preprocess (__dict__ self) image
    {| w_trace := w_trace w; w_rng := w_rng w;
       w_timer := S (w_timer w); w_reseeds := w_reseeds w |} = (Raise e, w1) ->
  detect_image env self image w = (Raise e, w1).
Proof.
  intros H. unfold detect_image, timer.
  unfold bind at 1. unfold bind at 1. unfold next_tick, ret.
  unfold bind at 1. rewrite H. reflexivity.
Qed.
End PreprocessFacts.



Lemma floor32_facts (x : Z) :
  (x - x mod 32) mod 32 = 0 /\ x - x mod 32 <= x < x - x mod 32 + 32.
Proof.
  pose proof (Z.mod_pos_bound x 32 ltac:(lia)) as Hb.
  split; [| lia].
  rewrite Zminus_mod_idemp_r, Z.sub_diag. reflexivity.
Qed.

(** C3 (as amended).  With the derive-from-image sentinel the source is
    handed to the same letterbox routine as on the fixed-size path, the
    target being the source's width and height each rounded down to the
    nearest lower multiple of 32.  The outcome is a canvas of exactly that
    size, and it is what the fixed-size path produces for that size. *)
Theorem sentinel_size_is_letterboxed {NR : NumpyRandom} (env : Env)
    (d : gmap string PyVal) (image : Image) (w : World) :
  size_setting d = Sentinel ->
  let tw := width image - width image mod 32 in
  let th := height image - height image mod 32 in
  (exists w',
     preprocess d image w = (Ok (letterbox_image image (tw, th)), w')
     /\ w_trace w' = (w_trace w ++ [EvLetterbox (width image) (height image) tw th])%list)
  /\ lb_size (letterbox_image image (tw, th)) = (tw, th)
  /\ tw mod 32 = 0 /\ th mod 32 = 0
  /\ tw <= width image < tw + 32 /\ th <= height image < th + 32
  /\ (forall d' : gmap string PyVal,
        size_setting d' = Fixed (Some th) (Some tw) ->
        preprocess d' image w = preprocess d image w).
Proof.
  intros Hs tw th.
  destruct (floor32_facts (width image)) as [Hw0 Hw1].
  destruct (floor32_facts (height image)) as [Hh0 Hh1].
  assert (Hrun : preprocess d image w = call_letterbox image (tw, th) w).
  { unfold preprocess. rewrite Hs. reflexivity. }
  split; [rewrite Hrun; apply call_letterbox_run |].
  split; [reflexivity |].
  do 4 (split; [assumption |]).
  intros d' Hs'. rewrite Hrun, (preprocess_fixed d' image w th tw Hs').
  subst tw th. rewrite Hh0, Hw0. reflexivity.
Qed.

Lemma sentinel_size_is_letterboxed_witness :
  let d := init_dict {[ "model_image_size" := VPair None None ]} in
  let image := {| width := 100; height := 50 |} in
  exists w',
    @preprocess lcg_random d image demo_world
      = (Ok (letterbox_image image (96, 32)), w')
    /\ w_trace w' = (w_trace demo_world ++ [EvLetterbox 100 50 96 32])%list.
Proof.
  cbn zeta.
  refine (proj1 (sentinel_size_is_letterboxed demo_env
                   (init_dict {[ "model_image_size" := VPair None None ]})
                   {| width := 100; height := 50 |} demo_world _)).
  vm_compute; reflexivity.
Defined.

(** C3, as stated, fails: with the sentinel, a source of 100 by 50 is not
    cropped to 96 by 32; it is scaled by 16/25 to 64 by 32 and padded with
    16 columns on either side. *)
Lemma sentinel_path_scales_and_pads :
  let d := init_dict {[ "model_image_size" := VPair None None ]} in
  let image := {| width := 100; height := 50 |} in
  match fst (@preprocess lcg_random d image demo_world) with
  | Ok lb =>
      lb_size lb = (96, 32)
      /\ lb_inner lb = (64, 32)
      /\ lb_offset lb = (16, 0)
      /\ (lb_scale lb == 16 # 25)%Q
      /\ ~ (lb_scale lb == 1)%Q
      /\ lb_inner lb <> lb_size lb
  | Raise _ => False
  end.
Proof.
  vm_compute. repeat split; try reflexivity; discriminate.
Qed.

(** ** Resolving the model *)

Section ResolveFacts.
Context {NR : NumpyRandom}.
Variable env : Env.

Lemma logged_app (evs evs' : list Event) (w : World) :
  logged evs' (logged evs w) = logged (evs ++ evs') w.
Proof. unfold logged. cbn. rewrite <- app_assoc. reflexivity. Qed.

Lemma emit_logged (ev : Event) (w : World) : emit ev w = (Ok tt, logged [ev] w).
Proof. reflexivity. Qed.

(** What [resolve_model] does, path by path. *)
Lemma resolve_model_run (d : gmap string PyVal) (cn : list string)
    (an : list (Q * Q)) (w : World) (p : string) :
  d !! "model_path" = Some (VStr p) ->
  let path := expanduser env p in
  let n := Z.of_nat (length an) in
  let c := Z.of_nat (length cn) in
  resolve_model env d cn an w =
    if negb (endswith path ".h5") then (Raise (AssertionError h5_msg), w)
    else match env_load_model env path with
         | Some a =>
             (if Qeq_bool (inject_Z (out_depth a))
                          (expected_depth n (num_outputs a) c)
              then Ok (Loaded a)
              else Raise (AssertionError mismatch_msg),
              logged [EvLoadModel path] w)
         | None =>
             (if env_load_weights env p
              then Ok (if n =? 6 then TinyYoloBody (n / 2) c
                       else YoloBody (n / 3) c)
              else Raise LibraryError,
              logged [EvLoadModel path;
                      if n =? 6 then EvTinyYoloBody (n / 2) c
                      else EvYoloBody (n / 3) c;
                      EvLoadWeights p] w)
         end.
Proof.
  intros Hp path n c. unfold resolve_model, attr_str. rewrite Hp.
  unfold bind at 1. unfold ret at 1. fold path n c.
  unfold bind at 1. unfold py_assert.
  destruct (endswith path ".h5"); cbn [negb]; [| reflexivity].
  unfold ret at 1. unfold try_except_else, load_model.
  unfold bind at 1. rewrite emit_logged.
  destruct (env_load_model env path) as [a|]; cbn [or_raise].
  - unfold ret at 1. unfold bind at 1.
    destruct (Qeq_bool _ _); reflexivity.
  - unfold raise at 1. unfold load_weights.
    destruct (n =? 6); unfold tiny_yolo_body, yolo_body;
      unfold bind, emit, ret, raise, logged; cbn;
      rewrite <- !app_assoc; cbn;
      destruct (env_load_weights env p); reflexivity.
Qed.

Lemma np_random_shuffle_run {A} (x : list A) (w : World) :
  np_random_shuffle x w =
    (Ok (fst (shuffle (w_rng w) x)),
     {| w_trace := w_trace w; w_rng := snd (shuffle (w_rng w) x);
        w_timer := w_timer w; w_reseeds := w_reseeds w |}).
Proof.
  unfold np_random_shuffle, bind, get_rng.
  destruct (shuffle (w_rng w) x) as [x' st']. reflexivity.
Qed.

(** Palette generation always succeeds; it leaves the trace and the clock
    alone and ends with the generator reseeded from the system. *)
Lemma generate_colors_run (N : nat) (w : World) :
  generate_colors env N w =
    (Ok (fst (shuffle (init_by_seed 10101) (sweep_colors N))),
     {| w_trace := w_trace w;
        w_rng := init_by_entropy (env_entropy env (w_reseeds w));
        w_timer := w_timer w; w_reseeds := S (w_reseeds w) |}).
Proof.
  unfold generate_colors, np_random_seed.
  unfold bind at 1. unfold put_rng at 1.
  unfold bind at 1. rewrite np_random_shuffle_run. cbn [w_rng w_trace w_timer w_reseeds].
  reflexivity.
Qed.

Lemma generate_resolve_raise (d : gmap string PyVal) (cn : list string)
    (an : list (Q * Q)) (w w1 : World) (e : Exn) :
  resolve_model env d cn an w = (Raise e, w1) ->
  generate env d cn an w = (Raise e, w1).
Proof. intros H. unfold generate. apply bind_raise. exact H. Qed.

(** Once the network is resolved, the rest of [generate] can only fail on
    an ill-typed [gpu_num]. *)
Lemma generate_resolve_ok (d : gmap string PyVal) (cn : list string)
    (an : list (Q * Q)) (w w1 : World) (net : Network) :
  resolve_model env d cn an w = (Ok net, w1) ->
  (exists r w2, generate env d cn an w = (Ok r, w2))
  \/ (exists w2, generate env d cn an w = (Raise TypeError, w2)).
Proof.
  intros H. unfold generate.
  rewrite (bind_ok _ _ _ _ _ H).
  rewrite (bind_ok _ _ _ _ _ (generate_colors_run _ w1)).
  unfold gpu_num_ge_2.
  destruct (d !! "gpu_num") as [[| z | q | s | a b]|];
    try (right; eexists; reflexivity).
  - left. unfold bind at 1. unfold ret at 1.
    destruct (2 <=? z); eexists _, _; reflexivity.
  - left. unfold bind at 1. unfold ret at 1.
    destruct (Qle_bool 2 q); eexists _, _; reflexivity.
Qed.
End ResolveFacts.

Lemma startswith_tilde_false (p : string) :
  startswith p "~" = false -> forall env : Env, expanduser env p = p.
Proof.
  intros H env. destruct p as [| a rest]; [reflexivity |].
  unfold expanduser.
  destruct a as [[] [] [] [] [] [] [] []]; try reflexivity.
  cbn in H. destruct rest; discriminate H.
Qed.

(** C10 (as amended).  Model resolution requires the model path after
    user expansion ([os.path.expanduser], which leaves every path not
    starting with a tilde as it is) to end with the suffix [.h5]: when it
    does not, construction stops on the assertion with no library call
    made, so before either way of acquiring the network is tried; when it
    does, the first library call is the attempt to load that file. *)
Theorem h5_suffix_required_after_expansion {NR : NumpyRandom} (env : Env)
    (d : gmap string PyVal) (cn : list string) (an : list (Q * Q))
    (w : World) (p : string) :
  d !! "model_path" = Some (VStr p) ->
  (endswith (expanduser env p) ".h5" = false ->
     generate env d cn an w = (Raise (AssertionError h5_msg), w))
  /\ (endswith (expanduser env p) ".h5" = true ->
        exists r w' evs,
          resolve_model env d cn an w = (r, w')
          /\ w_trace w' = (w_trace w ++ EvLoadModel (expanduser env p) :: evs)%list)
  /\ (startswith p "~" = false -> expanduser env p = p).
Proof.
  intros Hp. pose proof (resolve_model_run env d cn an w p Hp) as Hrun.
  cbn zeta in Hrun. repeat split.
  - intros Hsuf. apply generate_resolve_raise.
    rewrite Hrun, Hsuf. reflexivity.
  - intros Hsuf. rewrite Hrun, Hsuf. cbn [negb].
    destruct (env_load_model env (expanduser env p)); eexists _, _, _;
      (split; [reflexivity | reflexivity]).
  - intros Ht. apply startswith_tilde_false. exact Ht.
Qed.

Lemma h5_suffix_required_after_expansion_witness :
  let d := init_dict {[ "model_path" := VStr "model_data/yolo.weights" ]} in
  @generate lcg_random demo_env d [] [] demo_world
    = (Raise (AssertionError h5_msg), demo_world)
  /\ expanduser demo_env "model_data/yolo.weights" = "model_data/yolo.weights".
Proof.
  cbn zeta.
  assert (Hp : init_dict {[ "model_path" := VStr "model_data/yolo.weights" ]}
               !! "model_path" = Some (VStr "model_data/yolo.weights"))
    by (vm_compute; reflexivity).
  pose proof (h5_suffix_required_after_expansion demo_env _
                [] [] demo_world "model_data/yolo.weights" Hp) as (Hfail & _ & Hid).
  split.
  - apply Hfail. vm_compute; reflexivity.
  - apply Hid. vm_compute; reflexivity.
Defined.

(** C10, as stated, fails: on a machine whose home directory is
    [/srv/yolo.h5], the configured path [~] lacks the suffix, yet no
    assertion fires and the direct load is attempted and succeeds. *)
Lemma tilde_path_passes_suffix_check :
  let d := init_dict {[ "model_path" := VStr "~" ]} in
  endswith "~" ".h5" = false
  /\ d !! "model_path" = Some (VStr "~")
  /\ @resolve_model lcg_random odd_home_env d demo_class_names demo_anchors demo_world
     = (Ok (Loaded {| out_depth := 24; num_outputs := 3 |}),
        logged [EvLoadModel "/srv/yolo.h5"] demo_world)
  /\ (match fst (@generate lcg_random odd_home_env d demo_class_names demo_anchors
                   demo_world) with
      | Ok _ => True
      | Raise _ => False
      end).
Proof.
  cbn zeta.
  split; [vm_compute; reflexivity |].
  split; [vm_compute; reflexivity |].
  split; [reflexivity |].
  vm_compute. exact I.
Qed.

Lemma Qeq_bool_off_by_one (x y : Q) : (x == y + 1)%Q -> Qeq_bool x y = false.
Proof.
  intros H. destruct (Qeq_bool x y) eqn:E; [| reflexivity].
  apply Qeq_bool_eq in E. rewrite E in H. exfalso.
  assert (Hlt : (y < y + 1)%Q).
  { rewrite <- (Qplus_0_r y) at 1. apply Qplus_lt_r. reflexivity. }
  rewrite <- H in Hlt. exact (Qlt_irrefl _ Hlt).
Qed.

(** The float [num_anchors / heads * (num_classes + 5)] is the whole
    number one expects whenever the heads divide the anchors evenly. *)
Lemma expected_depth_whole (k : Z) (heads : positive) (c : Z) :
  Z.abs k < 2 ^ 53 -> Z.abs (c + 5) < 2 ^ 53 -> Z.abs (k * (c + 5)) < 2 ^ 53 ->
  (expected_depth (k * Z.pos heads) heads c == inject_Z (k * (c + 5)))%Q.
Proof.
  intros Hk Hc Hkc. unfold expected_depth, float_mul, int_truediv, float_of_int.
  assert (E1 : (inject_Z (k * Z.pos heads) / inject_Z (Z.pos heads) == inject_Z k)%Q).
  { rewrite inject_Z_mult. apply Qdiv_mult_l.
    pose proof (inject_Z_pos (Z.pos heads) (Pos2Z.is_pos heads)). lra. }
  rewrite (fl64_comp _ _ E1).
  assert (E2 : (fl64 (inject_Z k) * fl64 (inject_Z (c + 5)) == inject_Z (k * (c + 5)))%Q).
  { rewrite (fl64_Z k Hk), (fl64_Z (c + 5) Hc), inject_Z_mult. reflexivity. }
  rewrite (fl64_comp _ _ E2). apply fl64_Z, Hkc.
Qed.

(** C5.  On the direct-load path (the artifact loads), construction fails
    with the mismatch assertion exactly when the artifact's output depth
    differs from the float [num_anchors / heads * (num_classes + 5)] (the
    quotient of the two ints rounded to a double, and its product with
    the third rounded again), in particular when it is one more, and the
    network is the loaded artifact when the depth matches; that float is
    the whole number [(num_anchors / heads) * (num_classes + 5)] whenever
    the heads divide the anchors evenly.  When the load fails instead,
    the fallback path never raises the mismatch assertion, whatever the
    depth would have been. *)
Theorem consistency_checked_only_on_direct_load {NR : NumpyRandom} (env : Env)
    (d : gmap string PyVal) (cn : list string) (an : list (Q * Q))
    (w : World) (p : string) :
  d !! "model_path" = Some (VStr p) ->
  endswith (expanduser env p) ".h5" = true ->
  let n := Z.of_nat (length an) in
  let c := Z.of_nat (length cn) in
  match env_load_model env (expanduser env p) with
  | Some a =>
      let heads := Z.pos (num_outputs a) in
      let expected :=
        fl64 (fl64 (inject_Z n / inject_Z heads) * fl64 (inject_Z (c + 5))) in
      (fst (generate env d cn an w) = Raise (AssertionError mismatch_msg)
       <-> ~ (inject_Z (out_depth a) == expected)%Q)
      /\ ((inject_Z (out_depth a) == expected + 1)%Q ->
          fst (generate env d cn an w) = Raise (AssertionError mismatch_msg))
      /\ ((inject_Z (out_depth a) == expected)%Q ->
          fst (resolve_model env d cn an w) = Ok (Loaded a))
      /\ (forall k : Z,
            n = k * heads -> k * (c + 5) < 2 ^ 53 ->
            (expected == inject_Z (k * (c + 5)))%Q
            /\ (fst (generate env d cn an w) = Raise (AssertionError mismatch_msg)
                <-> out_depth a <> k * (c + 5)))
  | None =>
      fst (generate env d cn an w) <> Raise (AssertionError mismatch_msg)
  end.
Proof.
  intros Hp Hsuf n c.
  pose proof (resolve_model_run env d cn an w p Hp) as Hrun.
  cbn zeta in Hrun. rewrite Hsuf in Hrun. cbn [negb] in Hrun. fold n c in Hrun.
  destruct (env_load_model env (expanduser env p)) as [a |].
  - cbn zeta.
    change (fl64 (fl64 (inject_Z n / inject_Z (Z.pos (num_outputs a)))
                  * fl64 (inject_Z (c + 5))))
      with (expected_depth n (num_outputs a) c).
    assert (Hwhole : forall k : Z,
              n = k * Z.pos (num_outputs a) -> k * (c + 5) < 2 ^ 53 ->
              (expected_depth n (num_outputs a) c == inject_Z (k * (c + 5)))%Q).
    { intros k Hn Hkc. rewrite Hn.
      assert (Hn0 : 0 <= n) by apply Nat2Z.is_nonneg.
      assert (Hc0 : 0 <= c) by apply Nat2Z.is_nonneg.
      assert (Hk0 : 0 <= k) by nia.
      destruct (Z.eq_dec k 0) as [-> | Hk1].
      - unfold expected_depth, float_mul, int_truediv, float_of_int.
        rewrite !Z.mul_0_l.
        assert (E1 : (inject_Z 0 / inject_Z (Z.pos (num_outputs a)) == inject_Z 0)%Q)
          by reflexivity.
        rewrite (fl64_comp _ _ E1).
        assert (E2 : (fl64 (inject_Z 0) * fl64 (inject_Z (c + 5)) == inject_Z 0)%Q).
        { rewrite (fl64_Z 0) by reflexivity. change (inject_Z 0) with 0%Q. lra. }
        rewrite (fl64_comp _ _ E2). apply fl64_Z. reflexivity.
      - apply expected_depth_whole; nia. }
    assert (Hmain :
              (fst (generate env d cn an w) = Raise (AssertionError mismatch_msg)
               <-> ~ (inject_Z (out_depth a) == expected_depth n (num_outputs a) c)%Q)
              /\ ((inject_Z (out_depth a) == expected_depth n (num_outputs a) c + 1)%Q ->
                  fst (generate env d cn an w) = Raise (AssertionError mismatch_msg))
              /\ ((inject_Z (out_depth a) == expected_depth n (num_outputs a) c)%Q ->
                  fst (resolve_model env d cn an w) = Ok (Loaded a))).
    { destruct (Qeq_bool (inject_Z (out_depth a)) (expected_depth n (num_outputs a) c))
        eqn:Heq.
      + assert (Hq := Qeq_bool_eq _ _ Heq).
        destruct (generate_resolve_ok env d cn an w _ _ Hrun)
          as [(r & w2 & Hg) | (w2 & Hg)]; rewrite Hg; cbn [fst].
        * split; [split; [discriminate | intros Hne; contradiction] |].
          split; [| rewrite Hrun; reflexivity].
          intros H1. apply Qeq_bool_off_by_one in H1. congruence.
        * split; [split; [discriminate | intros Hne; contradiction] |].
          split; [| rewrite Hrun; reflexivity].
          intros H1. apply Qeq_bool_off_by_one in H1. congruence.
      + assert (Hq := Qeq_bool_neq _ _ Heq).
        rewrite (generate_resolve_raise env d cn an w _ _ Hrun). cbn [fst].
        split; [split; [intros _; exact Hq | reflexivity] |].
        split; [reflexivity | intros Hm; contradiction]. }
    destruct Hmain as (Hiff & Hoff & Hok).
    split; [exact Hiff |]. split; [exact Hoff |]. split; [exact Hok |].
    intros k Hn Hkc. pose proof (Hwhole k Hn Hkc) as Hw. split; [exact Hw |].
    rewrite Hiff, Hw, <- inject_Z_injective. reflexivity.
  - destruct (env_load_weights env p).
    + destruct (generate_resolve_ok env d cn an w _ _ Hrun)
        as [(r & w2 & Hg) | (w2 & Hg)]; rewrite Hg; discriminate.
    + rewrite (generate_resolve_raise env d cn an w _ _ Hrun). discriminate.
Qed.

Lemma consistency_checked_only_on_direct_load_witness :
  fst (@resolve_model lcg_random demo_env (init_dict ∅) demo_class_names demo_anchors
         demo_world)
  = Ok (Loaded {| out_depth := 24; num_outputs := 3 |})
  /\ (expected_depth 9 3 3 == 24)%Q
  /\ ~ (expected_depth 7 3 22 == 63)%Q.
Proof.
  assert (Hp : init_dict ∅ !! "model_path" = Some (VStr "model_data/yolo.h5"))
    by (vm_compute; reflexivity).
  assert (Hsuf : endswith (expanduser demo_env "model_data/yolo.h5") ".h5" = true)
    by (vm_compute; reflexivity).
  pose proof (@consistency_checked_only_on_direct_load lcg_random demo_env _
                demo_class_names demo_anchors demo_world _ Hp Hsuf) as H.
  cbn [env_load_model demo_env] in H.
  change (expanduser demo_env "model_data/yolo.h5") with "model_data/yolo.h5" in H.
  cbn [String.eqb Ascii.eqb Bool.eqb] in H. cbn zeta in H.
  destruct H as (_ & _ & H & Hwhole).
  split; [apply H; vm_compute; reflexivity |].
  split; [vm_compute; reflexivity | vm_compute; discriminate].
Defined.

(** C6.  Whenever the direct load fails, the fallback builds the reduced
    network with [num_anchors // 2] anchors per head exactly when there are
    six anchors and otherwise the full network with [num_anchors // 3], and
    then loads the raw weights (from the path as configured) into it. *)
Theorem fallback_topology_by_anchor_count {NR : NumpyRandom} (env : Env)
    (d : gmap string PyVal) (cn : list string) (an : list (Q * Q))
    (w : World) (p : string) :
  d !! "model_path" = Some (VStr p) ->
  endswith (expanduser env p) ".h5" = true ->
  env_load_model env (expanduser env p) = None ->
  let n := Z.of_nat (length an) in
  let c := Z.of_nat (length cn) in
  resolve_model env d cn an w =
    (if env_load_weights env p
     then Ok (if n =? 6 then TinyYoloBody (n / 2) c else YoloBody (n / 3) c)
     else Raise LibraryError,
     logged [EvLoadModel (expanduser env p);
             if n =? 6 then EvTinyYoloBody (n / 2) c else EvYoloBody (n / 3) c;
             EvLoadWeights p] w)
  /\ (n = 6 -> TinyYoloBody (n / 2) c = TinyYoloBody 3 c)
  /\ (n = 9 -> YoloBody (n / 3) c = YoloBody 3 c).
Proof.
  intros Hp Hsuf Hload n c.
  pose proof (resolve_model_run env d cn an w p Hp) as Hrun.
  cbn zeta in Hrun. rewrite Hsuf, Hload in Hrun. cbn [negb] in Hrun.
  split; [exact Hrun |].
  split; intros ->; reflexivity.
Qed.

Lemma fallback_topology_by_anchor_count_witness :
  let d := init_dict {[ "model_path" := VStr "weights/tiny.h5" ]} in
  @resolve_model lcg_random demo_env d demo_class_names (firstn 6 demo_anchors)
    demo_world
  = (Ok (TinyYoloBody 3 3),
     logged [EvLoadModel "weights/tiny.h5"; EvTinyYoloBody 3 3;
             EvLoadWeights "weights/tiny.h5"] demo_world).
Proof.
  cbn zeta.
  assert (Hp : init_dict {[ "model_path" := VStr "weights/tiny.h5" ]}
               !! "model_path" = Some (VStr "weights/tiny.h5"))
    by (vm_compute; reflexivity).
  assert (Hsuf : endswith (expanduser demo_env "weights/tiny.h5") ".h5" = true)
    by (vm_compute; reflexivity).
  assert (Hload : env_load_model demo_env (expanduser demo_env "weights/tiny.h5") = None)
    by (vm_compute; reflexivity).
  exact (proj1 (@fallback_topology_by_anchor_count lcg_random demo_env _
                  demo_class_names (firstn 6 demo_anchors) demo_world _
                  Hp Hsuf Hload)).
Defined.

(** ** The color palette *)

Lemma py_int_nonneg_floor (x : Q) : (0 <= x)%Q -> py_int x = Qfloor x.
Proof.
  intros Hx. unfold py_int, Qfloor. destruct x as [n d]. cbn [Qnum Qden].
  apply Z.quot_div_nonneg; [| reflexivity].
  unfold Qle in Hx. cbn in Hx. lia.
Qed.

Lemma py_int_255_bounds (c : Q) :
  (0 <= c)%Q -> (c <= 1)%Q -> 0 <= py_int (float_mul c (float_of_int 255)) <= 255.
Proof.
  intros H0 H1. unfold float_mul, float_of_int.
  assert (E : (c * fl64 (inject_Z 255) == c * inject_Z 255)%Q)
    by (rewrite (fl64_Z 255) by reflexivity; reflexivity).
  rewrite (fl64_comp _ _ E).
  destruct (fl64_between 0 255 (c * inject_Z 255)) as [Hlo Hhi];
    [reflexivity | reflexivity | change (inject_Z 255) with 255%Q;
                                 change (inject_Z 0) with 0%Q; lra |].
  rewrite py_int_nonneg_floor by exact Hlo.
  apply Qfloor_resp_le in Hlo, Hhi. rewrite Qfloor_Z in Hlo, Hhi.
  split; [exact Hlo | exact Hhi].
Qed.

Lemma py_int_255_one : py_int (float_mul 1 (float_of_int 255)) = 255.
Proof. vm_compute. reflexivity. Qed.

Lemma py_int_255_zero : py_int (float_mul (float_mul 1 (float_sub 1 1)) (float_of_int 255)) = 0.
Proof. vm_compute. reflexivity. Qed.

(** The fractional part [h*6.0 - int(h*6.0)] of a hue in the unit
    interval. *)
Lemma fraction_bounds (h : Q) :
  (0 <= h)%Q -> (h <= 1)%Q ->
  let f := float_sub (float_mul h 6) (float_of_int (py_int (float_mul h 6))) in
  (0 <= f <= 1)%Q.
Proof.
  intros H0 H1. cbn zeta. unfold float_sub, float_mul, float_of_int.
  destruct (fl64_between 0 6 (h * 6)) as [Hlo Hhi];
    [reflexivity | reflexivity | change (inject_Z 6) with 6%Q;
                                 change (inject_Z 0) with 0%Q; lra |].
  set (h6 := fl64 (h * 6)) in *.
  rewrite py_int_nonneg_floor by exact Hlo.
  pose proof (Qfloor_le h6) as Fl. pose proof (Qlt_floor h6) as Fu.
  rewrite inject_Z_plus in Fu. change (inject_Z 1) with 1%Q in Fu.
  assert (Hi : 0 <= Qfloor h6 <= 6).
  { apply Qfloor_resp_le in Hlo, Hhi. rewrite Qfloor_Z in Hlo, Hhi. lia. }
  assert (E : (h6 - fl64 (inject_Z (Qfloor h6)) == h6 - inject_Z (Qfloor h6))%Q)
    by (rewrite fl64_Z by lia; reflexivity).
  rewrite (fl64_comp _ _ E). apply fl64_unit. lra.
Qed.

Lemma float_mul_unit (x : Q) : (0 <= x <= 1)%Q -> (0 <= float_mul 1 x <= 1)%Q.
Proof. intros H. apply fl64_unit. lra. Qed.

Lemma float_sub_unit (x : Q) : (0 <= x <= 1)%Q -> (0 <= float_sub 1 x <= 1)%Q.
Proof. intros H. apply fl64_unit. lra. Qed.

Lemma hue_is_saturated (h : Q) :
  (0 <= h)%Q -> (h <= 1)%Q -> saturated (to_rgb255 (hsv_to_rgb h 1 1)).
Proof.
  intros H0 H1. unfold hsv_to_rgb. change (Qeq_bool 1 0) with false. cbn iota.
  pose proof (fraction_bounds h H0 H1) as Hf. cbn zeta in Hf.
  set (f := float_sub (float_mul h 6) (float_of_int (py_int (float_mul h 6)))) in *.
  pose proof (float_mul_unit _ (float_sub_unit _ (float_mul_unit _ Hf))) as Hq.
  pose proof (float_mul_unit _ (float_sub_unit _
                (float_mul_unit _ (float_sub_unit _ Hf)))) as Ht.
  destruct Hq as [Hq0 Hq1]. destruct Ht as [Ht0 Ht1].
  pose proof (py_int_255_bounds _ Hq0 Hq1) as Bq.
  pose proof (py_int_255_bounds _ Ht0 Ht1) as Bt.
  destruct (py_int (float_mul h 6) mod 6) as [| [[[]|[]|]|[[]|[]|]|] | ?];
    unfold to_rgb255, saturated, rgb8; cbn beta iota;
    rewrite py_int_255_one, py_int_255_zero; lia.
Qed.

Lemma sweep_colors_length (N : nat) : length (sweep_colors N) = N.
Proof.
  unfold sweep_colors, hsv_tuples. rewrite !length_map. apply length_seq.
Qed.

Lemma hue_in_unit_interval (x N : nat) :
  (x < N)%nat -> (0 <= int_truediv (Z.of_nat x) (Z.of_nat N) <= 1)%Q.
Proof.
  intros Hx. apply fl64_unit.
  assert (HN : (0 < inject_Z (Z.of_nat N))%Q) by (apply inject_Z_pos; lia).
  split.
  - apply Qle_shift_div_l; [exact HN |]. rewrite Qmult_0_l, <- (Zle_Qle 0). lia.
  - apply Qle_shift_div_r; [exact HN |]. rewrite Qmult_1_l, <- Zle_Qle. lia.
Qed.

Lemma sweep_colors_saturated (N : nat) : Forall saturated (sweep_colors N).
Proof.
  unfold sweep_colors, hsv_tuples. rewrite !Forall_map.
  apply Forall_forall. intros x Hx. cbn beta iota.
  apply elem_of_seq in Hx.
  destruct (hue_in_unit_interval x N ltac:(lia)) as [H0 H1].
  apply hue_is_saturated; assumption.
Qed.

Lemma saturated_rgb8 (c : RGB) : saturated c -> rgb8 c.
Proof. destruct c as [[r g] b]. intros [H _]. exact H. Qed.

Lemma sweep_colors_rgb8 (N : nat) : Forall rgb8 (sweep_colors N).
Proof. eapply Forall_impl; [apply sweep_colors_saturated | apply saturated_rgb8]. Qed.

(** The entry of index 16 of the default catalog of 80 classes: in exact
    arithmetic its first channel would be 204. *)
Lemma hue_16_of_80 :
  to_rgb255 (hsv_to_rgb (int_truediv 16 80) 1 1) = (203, 255, 0).
Proof. vm_compute. reflexivity. Qed.

Section ShuffleFacts.
Context {NR : NumpyRandom}.

Lemma swap_Permutation {A} (i j : nat) (x : list A) : swap i j x ≡ₚ x.
Proof.
  unfold swap.
  destruct (x !! i) as [a |] eqn:Hi; [| reflexivity].
  destruct (x !! j) as [b |] eqn:Hj; [| reflexivity].
  apply Permutation_insert_swap; assumption.
Qed.

Lemma shuffle_from_Permutation {A} (i : nat) :
  forall (st : RandomState) (x : list A), fst (shuffle_from i st x) ≡ₚ x.
Proof.
  induction i as [| i' IH]; intros st x; cbn [shuffle_from].
  - reflexivity.
  - destruct (random_interval st (S i')) as [j st'].
    rewrite IH. apply swap_Permutation.
Qed.

Lemma shuffle_Permutation {A} (st : RandomState) (x : list A) :
  fst (shuffle st x) ≡ₚ x.
Proof. apply shuffle_from_Permutation. Qed.
End ShuffleFacts.

(** C4 (as amended).  For every catalog size N, the palette is the hue
    sweep [hsv_to_rgb(x / N, 1, 1)] for [x] from 0 to N-1, scaled to 8 bits
    by [int(c * 255)] and then shuffled by the global generator seeded
    with 10101.  It has N colors, each an 8-bit RGB triple of full
    saturation and value, and is a reordering of the sweep; (a) the
    palette depends on N alone: any two constructions with the same N, on
    whatever machine and in whatever state, yield the same palette; and
    (b) afterwards the global random state is the one obtained by
    reseeding from fresh system entropy, whatever it was before the
    call. *)
Theorem palette_is_seeded_shuffle_of_sweep {NR : NumpyRandom} (env : Env)
    (N : nat) (w : World) :
  let sweep :=
    map (fun x : nat =>
           to_rgb255
             (hsv_to_rgb (fl64 (inject_Z (Z.of_nat x) / inject_Z (Z.of_nat N))) 1 1))
        (seq 0 N) in
  let palette := fst (shuffle (init_by_seed 10101) sweep) in
  generate_colors env N w =
    (Ok palette, {| w_trace := w_trace w;
                    w_rng := init_by_entropy (env_entropy env (w_reseeds w));
                    w_timer := w_timer w; w_reseeds := S (w_reseeds w) |})
  /\ length palette = N
  /\ Forall rgb8 palette
  /\ Forall saturated palette
  /\ palette ≡ₚ sweep
  /\ (forall (env' : Env) (w' : World), fst (generate_colors env' N w') = Ok palette).
Proof.
  cbn zeta.
  assert (Hsweep :
            map (fun x : nat =>
                   to_rgb255
                     (hsv_to_rgb
                        (fl64 (inject_Z (Z.of_nat x) / inject_Z (Z.of_nat N))) 1 1))
                (seq 0 N) = sweep_colors N).
  { unfold sweep_colors, hsv_tuples. rewrite !map_map. reflexivity. }
  rewrite Hsweep.
  pose proof (shuffle_Permutation (init_by_seed 10101) (sweep_colors N)) as Hperm.
  split; [apply generate_colors_run |].
  split; [rewrite Hperm; apply sweep_colors_length |].
  split; [rewrite Hperm; apply sweep_colors_rgb8 |].
  split; [rewrite Hperm; apply sweep_colors_saturated |].
  split; [exact Hperm |].
  intros env' w'. rewrite generate_colors_run. reflexivity.
Qed.

(** C4, as stated, fails in its part (b): a caller that seeded the
    generator with 42 finds it, after palette generation, in the state
    reseeded from the system, and its next draw is not the one it would
    have been. *)
Lemma random_state_not_restored :
  let w1 := snd (@generate_colors lcg_random demo_env 3 demo_world) in
  w_rng demo_world = 42
  /\ w_rng w1 = 7
  /\ w_rng w1 <> w_rng demo_world
  /\ fst (@random_interval lcg_random (w_rng w1) 9)
     <> fst (@random_interval lcg_random (w_rng demo_world) 9).
Proof.
  cbn zeta. repeat split; try (vm_compute; reflexivity);
    vm_compute; discriminate.
Qed.

(** ** The streaming loop *)

Section TraceFacts.
Context {NR : NumpyRandom}.
Variable P : Event -> Prop.

Lemma emits_only_ret {A} (a : A) : emits_only P (ret a).
Proof.
  intros w r w' [= <- <-]. exists []. rewrite app_nil_r. split; [reflexivity | constructor].
Qed.

Lemma emits_only_raise {A} (e : Exn) : emits_only P (@raise _ A e).
Proof.
  intros w r w' [= <- <-]. exists []. rewrite app_nil_r. split; [reflexivity | constructor].
Qed.

Lemma emits_only_emit (ev : Event) : P ev -> emits_only P (emit ev).
Proof.
  intros Hev w r w' [= <- <-]. exists [ev]. split; [reflexivity |].
  constructor; [exact Hev | constructor].
Qed.

Lemma emits_only_next_tick : emits_only P next_tick.
Proof.
  intros w r w' [= <- <-]. exists []. cbn. rewrite app_nil_r.
  split; [reflexivity | constructor].
Qed.

Lemma emits_only_bind {A B} (m : M A) (k : A -> M B) :
  emits_only P m -> (forall a, emits_only P (k a)) -> emits_only P (bind m k).
Proof.
  intros Hm Hk w r w' Hrun. unfold bind in Hrun.
  destruct (m w) as [[a | e] w1] eqn:Em.
  - destruct (Hm _ _ _ Em) as (evs1 & Ht1 & HP1).
    destruct (Hk a _ _ _ Hrun) as (evs2 & Ht2 & HP2).
    exists (evs1 ++ evs2)%list. split.
    + rewrite Ht2, Ht1, <- app_assoc. reflexivity.
    + apply Forall_app. split; assumption.
  - injection Hrun as <- <-. exact (Hm _ _ _ Em).
Qed.

Lemma emits_only_or_raise {A} (o : option A) (e : Exn) : emits_only P (or_raise o e).
Proof. destruct o; [apply emits_only_ret | apply emits_only_raise]. Qed.

Lemma emits_only_py_assert (c : bool) (msg : string) : emits_only P (py_assert c msg).
Proof. destruct c; [apply emits_only_ret | apply emits_only_raise]. Qed.

Lemma emits_only_for_each {A} (f : A -> M unit) (l : list A) :
  (forall a, emits_only P (f a)) -> emits_only P (for_each f l).
Proof.
  intros Hf. induction l as [| a l IH]; cbn [for_each].
  - apply emits_only_ret.
  - apply emits_only_bind; [apply Hf | intros _; exact IH].
Qed.
End TraceFacts.

Create HintDb trace.

#[local] Hint Resolve emits_only_ret emits_only_raise emits_only_next_tick
  emits_only_or_raise emits_only_py_assert : trace.

Ltac trace_step :=
  first
    [ apply emits_only_bind; [| intros ?]
    | apply emits_only_for_each; intros ?
    | apply emits_only_emit; exact I
    | solve [auto with trace] ].

Section StreamFacts.
Context {NR : NumpyRandom}.
Variable env : Env.

Lemma preprocess_emits (d : gmap string PyVal) (image : Image) :
  emits_only drawing_event (preprocess d image).
Proof.
  unfold preprocess, call_letterbox.
  destruct (size_setting d) as [| s0 s1 |]; repeat trace_step.
Qed.

Lemma draw_detection_emits (self : YOLO) (image : Image) (r : Detections)
    (thickness : Z) (ic : nat * Z) :
  emits_only drawing_event (draw_detection env self image r thickness ic).
Proof.
  unfold draw_detection. destruct ic as [i c].
  apply emits_only_bind; [auto with trace | intros predicted_class].
  apply emits_only_bind; [auto with trace | intros box].
  apply emits_only_bind; [auto with trace | intros score].
  destruct (clamp_box (env_promotion env) box image) as [[[t l] b] rr].
  repeat trace_step.
Qed.

Lemma detect_image_emits (self : YOLO) (image : Image) :
  emits_only drawing_event (detect_image env self image).
Proof.
  unfold detect_image, timer.
  apply emits_only_bind; [repeat trace_step | intros start].
  apply emits_only_bind; [apply preprocess_emits | intros boxed_image].
  apply emits_only_bind; [repeat trace_step | intros _].
  apply emits_only_bind; [repeat trace_step | intros _].
  apply emits_only_bind;
    [apply emits_only_for_each; intros ic; apply draw_detection_emits | intros _].
  repeat trace_step.
Qed.

Lemma occurrences_logged (ev : Event) (evs : list Event) (w w' : World) :
  w_trace w' = (w_trace w ++ evs)%list ->
  occurrences ev w' = (occurrences ev w + count_occ Event_eq_dec evs ev)%nat.
Proof. intros H. unfold occurrences. rewrite H. apply count_occ_app. Qed.

Lemma count_occ_drawing (ev : Event) (evs : list Event) :
  ~ drawing_event ev -> Forall drawing_event evs ->
  count_occ Event_eq_dec evs ev = 0%nat.
Proof.
  intros Hev HP. apply count_occ_not_In. intros Hin.
  rewrite Forall_forall in HP. apply Hev, HP. apply list_elem_of_In. exact Hin.
Qed.

(** A call of [detect_image] neither reads a frame, nor shows one, nor
    closes the session. *)
Lemma detect_image_occurrences (self : YOLO) (image : Image) (w w' : World) r
    (ev : Event) :
  detect_image env self image w = (r, w') -> ~ drawing_event ev ->
  occurrences ev w' = occurrences ev w.
Proof.
  intros Hrun Hev.
  destruct (detect_image_emits self image _ _ _ Hrun) as (evs & Ht & HP).
  rewrite (occurrences_logged ev evs w w' Ht), (count_occ_drawing ev evs Hev HP).
  lia.
Qed.
End StreamFacts.

Ltac decide_events :=
  repeat match goal with
         | |- context [Event_eq_dec ?a ?b] =>
             destruct (Event_eq_dec a b) as [? | ?];
             try discriminate; try contradiction
         end.

Section VideoFacts.
Context {NR : NumpyRandom}.
Variable env : Env.
Variable yolo : YOLO.
Variable isOutput : bool.

(** One iteration on a frame that is read and detected on: the frame is
    shown once, nothing is read or closed, and the loop stops exactly on
    the key [q]. *)
Lemma loop_body_frame (f : Frame) (k : nat) (prev_time : Q) (s : FpsState)
    (w : World) :
  fst (detect_image env yolo (frame_image f) w) = Ok (frame_image f) ->
  exists t s' w',
    loop_body env yolo isOutput (Some f) k prev_time s w
      = (Ok (Z.land (env_waitKey env k) 255 =? 113, t, s'), w')
    /\ occurrences EvCloseSession w' = occurrences EvCloseSession w
    /\ occurrences EvImshow w' = S (occurrences EvImshow w)
    /\ occurrences EvRead w' = occurrences EvRead w.
Proof.
  intros Hdet.
  destruct (detect_image env yolo (frame_image f) w) as [r w1] eqn:Ed.
  cbn [fst] in Hdet. subst r.
  pose proof (fun ev => detect_image_occurrences env yolo _ _ _ _ ev Ed) as Hocc.
  unfold loop_body. unfold bind at 1. cbn [Image_fromarray]. unfold ret at 1.
  fold (frame_image f). unfold bind at 1. rewrite Ed.
  unfold timer. unfold bind at 1. unfold bind at 1. unfold next_tick, ret at 1.
  unfold occurrences in *.
  destruct isOutput; eexists _, _, _; (split; [reflexivity |]);
    cbn [w_trace]; rewrite !count_occ_app; cbn [count_occ]; decide_events;
    rewrite !Hocc by (intros []); repeat split; lia.
Qed.

Lemma loop_body_no_frame (k : nat) (prev_time : Q) (s : FpsState) (w : World) :
  loop_body env yolo isOutput None k prev_time s w = (Raise AttributeError, w).
Proof. reflexivity. Qed.

(** A capture that runs dry ends the loop with the exception of
    [Image.fromarray], after one more read than there were frames. *)
Lemma video_loop_runs_dry (frames : list Frame) :
  (forall k : nat, Z.land (env_waitKey env k) 255 <> 113) ->
  (forall (f : Frame) (w0 : World),
      f ∈ frames ->
      fst (detect_image env yolo (frame_image f) w0) = Ok (frame_image f)) ->
  forall (fuel k : nat) (prev_time : Q) (s : FpsState) (w : World),
    (length frames < fuel)%nat ->
    exists w',
      video_loop env fuel yolo isOutput frames k prev_time s w
        = (Raise AttributeError, w')
      /\ occurrences EvCloseSession w' = occurrences EvCloseSession w
      /\ occurrences EvImshow w' = (occurrences EvImshow w + length frames)%nat
      /\ occurrences EvRead w' = (occurrences EvRead w + S (length frames))%nat.
Proof.
  intros Hkey. induction frames as [| f rest IH]; intros Hdet fuel k prev_time s w Hfuel.
  - destruct fuel as [| fuel']; [cbn in Hfuel; lia |].
    cbn [video_loop vid_read].
    rewrite (bind_ok _ _ _ _ _ (emit_logged EvRead w)).
    rewrite (bind_raise _ _ _ _ _ (loop_body_no_frame k prev_time s _)).
    eexists. split; [reflexivity |].
    unfold occurrences, logged. cbn [w_trace length].
    rewrite !count_occ_app. cbn [count_occ]. decide_events. repeat split; lia.
  - destruct fuel as [| fuel']; [cbn in Hfuel; lia |].
    cbn [video_loop vid_read].
    rewrite (bind_ok _ _ _ _ _ (emit_logged EvRead w)).
    destruct (loop_body_frame f k prev_time s (logged [EvRead] w))
      as (t & s' & w1 & Hbody & Hc & Hi & Hr).
    { apply Hdet. left. }
    rewrite (bind_ok _ _ _ _ _ Hbody).
    destruct (Z.eqb_spec (Z.land (env_waitKey env k) 255) 113) as [Hq | _];
      [exfalso; exact (Hkey k Hq) |].
    destruct (IH (fun f0 w0 Hin => Hdet f0 w0 (list_elem_of_further _ _ _ Hin))
                 fuel' (S k) t s' w1) as (w' & Hloop & Hc' & Hi' & Hr').
    { cbn [length] in Hfuel. lia. }
    exists w'. split; [exact Hloop |].
    rewrite Hc', Hi', Hr', Hc, Hi, Hr.
    unfold occurrences, logged. cbn [w_trace length].
    rewrite !count_occ_app. cbn [count_occ]. decide_events. repeat split; lia.
Qed.
End VideoFacts.

(** C1 (what the code does instead).  When the capture yields N frames
    that are all detected on and then fails to read, with no [q] pressed,
    [detect_video] shows exactly N frames and reads N + 1 times, but it
    does not exit cleanly: the failed read goes unchecked, the exception
    of [Image.fromarray] leaves the function, and the session is not
    closed. *)
Theorem end_of_stream_raises_without_release {NR : NumpyRandom} (env : Env)
    (yolo : YOLO) (video_path output_path : string) (frames : list Frame)
    (fuel : nat) (w : World) :
  env_video env video_path = Some frames ->
  (length frames < fuel)%nat ->
  (forall k : nat, Z.land (env_waitKey env k) 255 <> 113) ->
  (forall (f : Frame) (w0 : World),
      f ∈ frames ->
      fst (detect_image env yolo (frame_image f) w0) = Ok (frame_image f)) ->
  exists w',
    detect_video env fuel yolo video_path output_path w = (Raise AttributeError, w')
    /\ occurrences EvCloseSession w' = occurrences EvCloseSession w
    /\ occurrences EvImshow w' = (occurrences EvImshow w + length frames)%nat
    /\ occurrences EvRead w' = (occurrences EvRead w + S (length frames))%nat.
Proof.
  intros Hvid Hfuel Hkey Hdet. unfold detect_video.
  rewrite (bind_ok _ _ _ _ _ (emit_logged (EvVideoCapture video_path) w)).
  rewrite Hvid. cbn [or_raise]. unfold bind at 1. unfold ret at 1.
  set (isOutput := negb (String.eqb output_path "")).
  assert (Hpre : exists w0 t,
             forall B (k : Q -> M B),
               ((if isOutput then emit (EvVideoWriter output_path) else ret tt) ;;;
                (prev_time <- timer env ;; k prev_time))
                 (logged [EvVideoCapture video_path] w) = k t w0
             /\ occurrences EvCloseSession w0 = occurrences EvCloseSession w
             /\ occurrences EvImshow w0 = occurrences EvImshow w
             /\ occurrences EvRead w0 = occurrences EvRead w).
  { destruct isOutput; eexists _, _; intros B k; (split; [reflexivity |]);
      unfold occurrences, logged; cbn [w_trace];
      rewrite !count_occ_app; cbn [count_occ]; decide_events; repeat split; lia. }
  destruct Hpre as (w0 & t & Hpre).
  destruct (Hpre _ (fun prev_time =>
              r <- video_loop env fuel yolo isOutput frames 0 prev_time
                     {| accum_time := 0; curr_fps := 0; fps := "FPS: ??" |} ;;
              match r with
              | Some _ => close_session ;;; ret (Some tt)
              | None => ret None
              end)) as (Hrun & Hc & Hi & Hr).
  rewrite Hrun.
  destruct (video_loop_runs_dry env yolo isOutput frames Hkey Hdet fuel 0%nat t
              {| accum_time := 0; curr_fps := 0; fps := "FPS: ??" |} w0 Hfuel)
    as (w' & Hloop & Hc' & Hi' & Hr').
  rewrite (bind_raise _ _ _ _ _ Hloop).
  exists w'. split; [reflexivity |].
  rewrite Hc', Hi', Hr', Hc, Hi, Hr. repeat split; reflexivity.
Qed.

Lemma end_of_stream_raises_without_release_witness :
  exists w',
    @detect_video lcg_random demo_env 3 demo_detector "clip.mp4" "" demo_world
      = (Raise AttributeError, w')
    /\ occurrences EvCloseSession w' = 0%nat
    /\ occurrences EvImshow w' = 2%nat
    /\ occurrences EvRead w' = 3%nat.
Proof.
  refine (end_of_stream_raises_without_release demo_env demo_detector "clip.mp4" ""
            [ {| rows := 480; cols := 640 |}; {| rows := 480; cols := 640 |} ]
            3 demo_world _ _ _ _).
  - vm_compute. reflexivity.
  - cbn [length]. lia.
  - intros k. vm_compute. discriminate.
  - intros f w0 Hf.
    rewrite !elem_of_cons, elem_of_nil in Hf.
    destruct Hf as [-> | [-> | []]]; vm_compute; reflexivity.
Defined.

Section CancelFacts.
Context {NR : NumpyRandom}.
Variable env : Env.
Variable yolo : YOLO.
Variable isOutput : bool.

(** The loop stops at the first poll that sees [q], having read and
    shown one frame per poll. *)
Lemma video_loop_cancelled (j : nat) :
  forall (frames : list Frame) (fuel k : nat) (prev_time : Q) (s : FpsState)
         (w : World),
    (j < length frames)%nat -> (j < fuel)%nat ->
    (forall i : nat, (i < j)%nat -> Z.land (env_waitKey env (k + i)) 255 <> 113) ->
    Z.land (env_waitKey env (k + j)) 255 = 113 ->
    (forall (f : Frame) (w0 : World),
        f ∈ frames ->
        fst (detect_image env yolo (frame_image f) w0) = Ok (frame_image f)) ->
    exists w',
      video_loop env fuel yolo isOutput frames k prev_time s w = (Ok (Some tt), w')
      /\ occurrences EvCloseSession w' = occurrences EvCloseSession w
      /\ occurrences EvImshow w' = (occurrences EvImshow w + S j)%nat
      /\ occurrences EvRead w' = (occurrences EvRead w + S j)%nat.
Proof.
  induction j as [| j IH]; intros frames fuel k prev_time s w Hlen Hfuel Hno Hq Hdet;
    (destruct frames as [| f rest]; [cbn in Hlen; lia |]);
    (destruct fuel as [| fuel']; [lia |]);
    cbn [video_loop vid_read];
    rewrite (bind_ok _ _ _ _ _ (emit_logged EvRead w));
    (destruct (loop_body_frame env yolo isOutput f k prev_time s (logged [EvRead] w))
      as (t & s' & w1 & Hbody & Hc & Hi & Hr); [apply Hdet; left |]);
    rewrite (bind_ok _ _ _ _ _ Hbody).
  - rewrite Nat.add_0_r in Hq. rewrite Hq. cbn [Z.eqb Pos.eqb].
    exists w1. split; [reflexivity |].
    rewrite Hc, Hi, Hr. unfold occurrences, logged. cbn [w_trace].
    rewrite !count_occ_app. cbn [count_occ]. decide_events. repeat split; lia.
  - destruct (Z.eqb_spec (Z.land (env_waitKey env k) 255) 113) as [Hk | _].
    { exfalso. apply (Hno 0%nat); [lia |]. rewrite Nat.add_0_r. exact Hk. }
    destruct (IH rest fuel' (S k) t s' w1) as (w' & Hloop & Hc' & Hi' & Hr').
    + cbn [length] in Hlen. lia.
    + lia.
    + intros i Hi0. replace (S k + i)%nat with (k + S i)%nat by lia.
      apply Hno. lia.
    + replace (S k + j)%nat with (k + S j)%nat by lia. exact Hq.
    + intros f0 w0 Hin. apply Hdet. right. exact Hin.
    + exists w'. split; [exact Hloop |].
      rewrite Hc', Hi', Hr', Hc, Hi, Hr. unfold occurrences, logged. cbn [w_trace].
      rewrite !count_occ_app. cbn [count_occ]. decide_events. repeat split; lia.
Qed.
End CancelFacts.

(** * Further properties of the code *)

(** ** Leaving the streaming loop on the key [q] *)

Section StreamExit.
Context {NR : NumpyRandom}.
Variable env : Env.

(** What [detect_video] does before it enters the loop, once the capture
    is open: nothing is read, shown or closed. *)
Lemma detect_video_prologue (output_path video_path : string) (w : World) :
  exists w0 t,
    (forall B (k : Q -> M B),
        ((if negb (String.eqb output_path "")
          then emit (EvVideoWriter output_path) else ret tt) ;;;
         (prev_time <- timer env ;; k prev_time))
          (logged [EvVideoCapture video_path] w) = k t w0)
    /\ occurrences EvCloseSession w0 = occurrences EvCloseSession w
    /\ occurrences EvImshow w0 = occurrences EvImshow w
    /\ occurrences EvRead w0 = occurrences EvRead w.
Proof.
  destruct (negb (String.eqb output_path "")); eexists _, _;
    (split; [intros B k; reflexivity |]);
    unfold occurrences, logged; cbn [w_trace];
    rewrite !count_occ_app; cbn [count_occ]; decide_events; repeat split; lia.
Qed.

(** When [q] is first seen at the poll after frame [j] (counting from 0),
    [detect_video] returns normally after reading and showing [j + 1]
    frames, and the session is closed exactly once. *)
Theorem cancel_closes_session_once (yolo : YOLO) (video_path output_path : string)
    (frames : list Frame) (fuel j : nat) (w : World) :
  env_video env video_path = Some frames ->
  (j < length frames)%nat -> (j < fuel)%nat ->
  (forall i : nat, (i < j)%nat -> Z.land (env_waitKey env i) 255 <> 113) ->
  Z.land (env_waitKey env j) 255 = 113 ->
  (forall (f : Frame) (w0 : World),
      f ∈ frames ->
      fst (detect_image env yolo (frame_image f) w0) = Ok (frame_image f)) ->
  exists w',
    detect_video env fuel yolo video_path output_path w = (Ok (Some tt), w')
    /\ occurrences EvCloseSession w' = S (occurrences EvCloseSession w)
    /\ occurrences EvImshow w' = (occurrences EvImshow w + S j)%nat
    /\ occurrences EvRead w' = (occurrences EvRead w + S j)%nat.
Proof.
  intros Hvid Hlen Hfuel Hno Hq Hdet. unfold detect_video.
  rewrite (bind_ok _ _ _ _ _ (emit_logged (EvVideoCapture video_path) w)).
  rewrite Hvid. cbn [or_raise]. unfold bind at 1. unfold ret at 1.
  destruct (detect_video_prologue output_path video_path w)
    as (w0 & t & Hrun & Hc & Hi & Hr).
  rewrite Hrun.
  destruct (video_loop_cancelled env yolo (negb (String.eqb output_path "")) j frames
              fuel 0%nat t {| accum_time := 0; curr_fps := 0; fps := "FPS: ??" |} w0
              Hlen Hfuel Hno Hq Hdet) as (w1 & Hloop & Hc' & Hi' & Hr').
  rewrite (bind_ok _ _ _ _ _ Hloop).
  unfold close_session. rewrite (bind_ok _ _ _ _ _ (emit_logged EvCloseSession w1)).
  eexists. split; [reflexivity |].
  rewrite <- Hc, <- Hi, <- Hr, <- Hc', <- Hi', <- Hr'.
  unfold occurrences, logged. cbn [w_trace].
  rewrite !count_occ_app. cbn [count_occ]. decide_events. repeat split; lia.
Qed.
End StreamExit.

Lemma cancel_closes_session_once_witness :
  exists w',
    @detect_video lcg_random demo_env_q 5 demo_detector "clip.mp4" "out.avi" demo_world
      = (Ok (Some tt), w')
    /\ occurrences EvCloseSession w' = 1%nat
    /\ occurrences EvImshow w' = 2%nat
    /\ occurrences EvRead w' = 2%nat.
Proof.
  refine (cancel_closes_session_once demo_env_q demo_detector "clip.mp4" "out.avi"
            [ {| rows := 480; cols := 640 |}; {| rows := 480; cols := 640 |} ]
            5 1 demo_world _ _ _ _ _ _).
  - vm_compute. reflexivity.
  - cbn [length]. lia.
  - lia.
  - intros i Hi. assert (i = 0%nat) as -> by lia. vm_compute. discriminate.
  - vm_compute. reflexivity.
  - intros f w0 Hf.
    rewrite !elem_of_cons, elem_of_nil in Hf.
    destruct Hf as [-> | [-> | []]]; vm_compute; reflexivity.
Defined.

(** ** Every way out of the streaming loop *)

Section AnyExit.
Context {NR : NumpyRandom}.
Variable env : Env.
Variable yolo : YOLO.
Variable isOutput : bool.

Lemma shown_and_written_refl (w : World) : shown_and_written isOutput w w.
Proof.
  split; [reflexivity |]. exists 0%nat. destruct isOutput; split; lia.
Qed.

Lemma shown_and_written_trans (w1 w2 w3 : World) :
  shown_and_written isOutput w1 w2 -> shown_and_written isOutput w2 w3 ->
  shown_and_written isOutput w1 w3.
Proof.
  intros [Hc (n & Hi & Hw)] [Hc' (m & Hi' & Hw')].
  split; [congruence |]. exists (n + m)%nat.
  rewrite Hi', Hw', Hi, Hw. destruct isOutput; split; lia.
Qed.

Lemma shown_and_written_drawing (w w' : World) (evs : list Event) :
  w_trace w' = (w_trace w ++ evs)%list -> Forall drawing_event evs ->
  shown_and_written isOutput w w'.
Proof.
  intros Ht HP. split.
  - rewrite (occurrences_logged _ evs w w' Ht), (count_occ_drawing _ evs) by auto. lia.
  - exists 0%nat.
    rewrite !(occurrences_logged _ evs w w' Ht), !(count_occ_drawing _ evs) by auto.
    destruct isOutput; split; lia.
Qed.

Lemma loop_body_any_exit (frame : option Frame) (k : nat) (prev_time : Q)
    (s : FpsState) (w w' : World) r :
  loop_body env yolo isOutput frame k prev_time s w = (r, w') ->
  shown_and_written isOutput w w'.
Proof.
  unfold loop_body. intros Hrun.
  destruct frame as [f |]; cbn [Image_fromarray] in Hrun.
  - unfold bind at 1 in Hrun. unfold ret at 1 in Hrun. unfold bind at 1 in Hrun.
    destruct (detect_image env yolo {| width := cols f; height := rows f |} w)
      as [[im | e] w1] eqn:Ed.
    + destruct (detect_image_emits env yolo _ _ _ _ Ed) as (evs & Ht & HP).
      apply (shown_and_written_trans _ w1);
        [exact (shown_and_written_drawing _ _ _ Ht HP) |].
      unfold timer, bind, next_tick, ret, emit in Hrun.
      destruct isOutput; cbn in Hrun; injection Hrun as <- <-;
        (split; [| exists 1%nat]); unfold occurrences; cbn [w_trace];
        rewrite !count_occ_app; cbn [count_occ]; decide_events; try split; lia.
    + injection Hrun as <- <-.
      destruct (detect_image_emits env yolo _ _ _ _ Ed) as (evs & Ht & HP).
      exact (shown_and_written_drawing _ _ _ Ht HP).
  - injection Hrun as <- <-. apply shown_and_written_refl.
Qed.

Lemma shown_and_written_logged (ev : Event) (w : World) :
  ev <> EvCloseSession -> ev <> EvImshow -> ev <> EvWrite ->
  shown_and_written isOutput w (logged [ev] w).
Proof.
  intros H1 H2 H3. split; [| exists 0%nat]; unfold occurrences, logged; cbn [w_trace];
    rewrite !count_occ_app; cbn [count_occ]; decide_events;
    destruct isOutput; try split; lia.
Qed.

Lemma video_loop_any_exit (fuel : nat) :
  forall (frames : list Frame) (k : nat) (prev_time : Q) (s : FpsState)
         (w w' : World) r,
    video_loop env fuel yolo isOutput frames k prev_time s w = (r, w') ->
    shown_and_written isOutput w w'.
Proof.
  induction fuel as [| fuel' IH]; intros frames k prev_time s w w' r Hrun;
    cbn [video_loop] in Hrun.
  - injection Hrun as <- <-. apply shown_and_written_refl.
  - rewrite (bind_ok _ _ _ _ _ (emit_logged EvRead w)) in Hrun.
    apply (shown_and_written_trans _ (logged [EvRead] w));
      [apply shown_and_written_logged; discriminate |].
    destruct (vid_read frames) as [[return_value frame] rest].
    unfold bind at 1 in Hrun.
    destruct (loop_body env yolo isOutput frame k prev_time s (logged [EvRead] w))
      as [[[[stop t] s'] | e] w1] eqn:Eb.
    + apply (shown_and_written_trans _ w1); [exact (loop_body_any_exit _ _ _ _ _ _ _ Eb) |].
      destruct stop.
      * injection Hrun as <- <-. apply shown_and_written_refl.
      * exact (IH _ _ _ _ _ _ _ Hrun).
    + injection Hrun as <- <-. exact (loop_body_any_exit _ _ _ _ _ _ _ Eb).
Qed.
End AnyExit.

(** However [detect_video] ends, the session is closed exactly when it
    returns after the key [q], and never when an exception leaves it or
    the capture cannot be opened; and every frame that was shown was also
    written when an output path was given, none being written otherwise. *)
Theorem session_closed_only_on_normal_return {NR : NumpyRandom} (env : Env)
    (fuel : nat) (yolo : YOLO) (video_path output_path : string)
    (w w' : World) (r : outcome (option unit)) :
  detect_video env fuel yolo video_path output_path w = (r, w') ->
  occurrences EvCloseSession w'
    = (occurrences EvCloseSession w
       + match r with Ok (Some _) => 1 | _ => 0 end)%nat
  /\ exists n : nat,
       occurrences EvImshow w' = (occurrences EvImshow w + n)%nat
       /\ occurrences EvWrite w'
          = (occurrences EvWrite w + if String.eqb output_path "" then 0 else n)%nat.
Proof.
  unfold detect_video. intros Hrun.
  rewrite (bind_ok _ _ _ _ _ (emit_logged (EvVideoCapture video_path) w)) in Hrun.
  set (isOutput := negb (String.eqb output_path "")) in *.
  assert (Hout : forall n : nat,
             (if String.eqb output_path "" then 0 else n)%nat
             = (if isOutput then n else 0)%nat)
    by (intros n; subst isOutput; destruct (String.eqb output_path ""); reflexivity).
  assert (H0 : shown_and_written isOutput w (logged [EvVideoCapture video_path] w))
    by (apply shown_and_written_logged; discriminate).
  assert (Hend : forall w1,
             shown_and_written isOutput w w1 ->
             occurrences EvCloseSession w1
               = (occurrences EvCloseSession w + 0)%nat
             /\ exists n : nat,
                  occurrences EvImshow w1 = (occurrences EvImshow w + n)%nat
                  /\ occurrences EvWrite w1
                     = (occurrences EvWrite w
                        + if String.eqb output_path "" then 0 else n)%nat).
  { intros w1 [Hc (n & Hi & Hw)]. split; [lia |]. exists n. rewrite Hout. auto. }
  destruct (env_video env video_path) as [frames |]; cbn [or_raise] in Hrun.
  - unfold bind at 1 in Hrun. unfold ret at 1 in Hrun.
    unfold bind at 1 in Hrun.
    destruct ((if isOutput then emit (EvVideoWriter output_path) else ret tt)
                (logged [EvVideoCapture video_path] w)) as [[[] | e] w1] eqn:Ew.
    + assert (H1 : shown_and_written isOutput w w1).
      { apply (shown_and_written_trans _ _ _ _ H0).
        destruct isOutput.
        - rewrite emit_logged in Ew. injection Ew as <-.
          apply shown_and_written_logged; discriminate.
        - injection Ew as <-. apply shown_and_written_refl. }
      unfold timer in Hrun. unfold bind at 1 in Hrun. unfold bind at 1 in Hrun.
      unfold next_tick, ret at 1 in Hrun. unfold bind at 1 in Hrun.
      match type of Hrun with
      | context [video_loop env fuel yolo isOutput frames 0 ?t ?s ?w2] =>
          destruct (video_loop env fuel yolo isOutput frames 0 t s w2)
            as [[[[] |] | e] w3] eqn:El;
          pose proof (video_loop_any_exit env yolo isOutput fuel _ _ _ _ _ _ _ El) as H2
      end.
      * unfold close_session in Hrun.
        rewrite (bind_ok _ _ _ _ _ (emit_logged EvCloseSession w3)) in Hrun.
        injection Hrun as <- <-.
        assert (H3 : shown_and_written isOutput w w3).
        { apply (shown_and_written_trans _ _ _ _ H1).
          destruct H2 as [Hc Hn]. split; [exact Hc | exact Hn]. }
        destruct H3 as [Hc (n & Hi & Hw)].
        split; [| exists n; rewrite Hout];
          unfold occurrences, logged in *; cbn [w_trace] in *;
          rewrite !count_occ_app; cbn [count_occ]; decide_events; try split; lia.
      * injection Hrun as <- <-. apply Hend.
        apply (shown_and_written_trans _ _ _ _ H1).
        destruct H2 as [Hc Hn]. split; [exact Hc | exact Hn].
      * injection Hrun as <- <-. apply Hend.
        apply (shown_and_written_trans _ _ _ _ H1).
        destruct H2 as [Hc Hn]. split; [exact Hc | exact Hn].
    + destruct isOutput; discriminate Ew.
  - injection Hrun as <- <-. apply Hend. exact H0.
Qed.

Lemma session_closed_only_on_normal_return_witness :
  let run := @detect_video lcg_random demo_env_q 5 demo_detector "clip.mp4" "out.avi"
               demo_world in
  occurrences EvCloseSession (snd run)
    = (occurrences EvCloseSession demo_world
       + match fst run with Ok (Some _) => 1 | _ => 0 end)%nat
  /\ exists n : nat,
       occurrences EvImshow (snd run) = (occurrences EvImshow demo_world + n)%nat
       /\ occurrences EvWrite (snd run)
          = (occurrences EvWrite demo_world
             + if String.eqb "out.avi" "" then 0 else n)%nat.
Proof.
  cbn zeta.
  apply (session_closed_only_on_normal_return demo_env_q 5 demo_detector
           "clip.mp4" "out.avi" demo_world).
  apply surjective_pairing.
Defined.

(** ** Reading the anchors *)

Lemma reshape2_spec_aux (n : nat) :
  forall l : list Q,
    (length l <= n)%nat ->
    match reshape2 l with
    | Some ps => flatten_pairs ps = l /\ length l = (2 * length ps)%nat
    | None => Nat.Odd (length l)
    end.
Proof.
  induction n as [| n IH]; intros l Hlen.
  - destruct l; [| cbn in Hlen; lia]. cbn. split; reflexivity.
  - destruct l as [| a [| b r]].
    + cbn. split; reflexivity.
    + cbn. exists 0%nat. reflexivity.
    + cbn [reshape2]. specialize (IH r). cbn [length] in Hlen.
      destruct (reshape2 r) as [ps |]; cbn [option_map].
      * destruct IH as [Hf Hl]; [lia |]. unfold flatten_pairs in *. cbn [map concat].
        cbn [fst snd app length]. rewrite Hf, Hl. split; [reflexivity | lia].
      * destruct IH as [m Hm]; [lia |]. exists (S m). cbn [length]. lia.
Qed.

Section AnchorFacts.
Context {NR : NumpyRandom}.
Variable env : Env.

(** Once the anchors file is read and its comma-separated values parse,
    [_get_anchors] has opened that one file and either returns the anchors,
    which are the values taken two by two in file order, or raises
    ValueError, which happens exactly when the number of values is odd. *)
Theorem anchors_are_consecutive_pairs (d : gmap string PyVal) (w : World)
    (p content : string) (floats : list Q) :
  d !! "anchors_path" = Some (VStr p) ->
  env_file env (expanduser env p) = Some content ->
  mapM (env_float env) (split_on "," (readline content)) = Some floats ->
  exists r,
    _get_anchors env d w = (r, logged [EvOpen (expanduser env p)] w)
    /\ match r with
       | Ok ps => flatten_pairs ps = floats /\ length floats = (2 * length ps)%nat
       | Raise e => e = ValueError /\ Nat.Odd (length floats)
       end.
Proof.
  intros Hp Hfile Hfloats. unfold _get_anchors, attr_str. rewrite Hp.
  unfold bind at 1. unfold ret at 1. unfold open_read.
  unfold bind at 1. rewrite (bind_ok _ _ _ _ _ (emit_logged _ w)).
  rewrite Hfile. cbn [or_raise]. unfold ret at 1.
  rewrite Hfloats. cbn [or_raise]. unfold bind at 1. unfold ret at 1.
  pose proof (reshape2_spec_aux (length floats) floats (le_n _)) as Hspec.
  destruct (reshape2 floats) as [ps |]; cbn [or_raise].
  - exists (Ok ps). split; [reflexivity | exact Hspec].
  - exists (Raise ValueError). split; [reflexivity |]. split; [reflexivity | exact Hspec].
Qed.
End AnchorFacts.

Lemma anchors_are_consecutive_pairs_witness :
  exists r,
    @_get_anchors lcg_random demo_env (init_dict ∅) demo_world
      = (r, logged [EvOpen "model_data/yolo_anchors.txt"] demo_world)
    /\ match r with
       | Ok ps => flatten_pairs ps = flatten_pairs demo_anchors
                  /\ length (flatten_pairs demo_anchors) = (2 * length ps)%nat
       | Raise e => e = ValueError /\ Nat.Odd (length (flatten_pairs demo_anchors))
       end.
Proof.
  refine (anchors_are_consecutive_pairs demo_env (init_dict ∅) demo_world
            "model_data/yolo_anchors.txt"
            "10,13,  16,30,  33,23,  30,61,  62,45,  59,119,  116,90,  156,198,  373,326"
            (flatten_pairs demo_anchors) _ _ _).
  - vm_compute. reflexivity.
  - vm_compute. reflexivity.
  - vm_compute. reflexivity.
Defined.

(** ** The order of work in the constructor *)

Section ConstructorFacts.
Context {NR : NumpyRandom}.
Variable env : Env.

Lemma attr_str_emits (P : Event -> Prop) (d : gmap string PyVal) (name : string) :
  emits_only P (attr_str d name).
Proof.
  unfold attr_str. destruct (d !! name) as [[| z | q | s | a b] |]; auto with trace.
Qed.

Lemma open_read_emits (path : string) : emits_only open_event (open_read env path).
Proof. unfold open_read. repeat trace_step. Qed.

Lemma _get_class_emits (d : gmap string PyVal) : emits_only open_event (_get_class env d).
Proof.
  unfold _get_class.
  apply emits_only_bind; [apply attr_str_emits | intros p].
  apply emits_only_bind; [apply open_read_emits | intros content].
  auto with trace.
Qed.

Lemma _get_anchors_emits (d : gmap string PyVal) :
  emits_only open_event (_get_anchors env d).
Proof.
  unfold _get_anchors.
  apply emits_only_bind; [apply attr_str_emits | intros p].
  apply emits_only_bind; [apply open_read_emits | intros content].
  apply emits_only_bind; [auto with trace | intros floats].
  auto with trace.
Qed.

Lemma call_method_emits (P : Event -> Prop) {A} (d : gmap string PyVal)
    (name : string) (body : M A) :
  emits_only P body -> emits_only P (call_method d name body).
Proof. intros H. unfold call_method. destruct (d !! name); auto with trace. Qed.

Lemma init_keeps_dict (kwargs : gmap string PyVal) (w w' : World) (y : YOLO) :
  __init__ env kwargs w = (Ok y, w') -> __dict__ y = other_entries (init_dict kwargs).
Proof.
  unfold __init__. intros H. invert_binds H.
  apply ret_Ok_inv in H as [<- _]. reflexivity.
Qed.

(** When reading the class names or the anchors fails, construction fails
    with that same exception having done nothing but open text files: no
    session was obtained and no network loaded or built. *)
Theorem config_files_fail_before_session (kwargs : gmap string PyVal)
    (w w1 : World) (e : Exn) :
  let d := init_dict kwargs in
  (call_method d "_get_class" (_get_class env d) w = (Raise e, w1)
   \/ exists cn w0,
        call_method d "_get_class" (_get_class env d) w = (Ok cn, w0)
        /\ call_method d "_get_anchors" (_get_anchors env d) w0 = (Raise e, w1)) ->
  __init__ env kwargs w = (Raise e, w1)
  /\ exists evs : list Event,
       w_trace w1 = (w_trace w ++ evs)%list /\ Forall open_event evs.
Proof.
  cbn zeta. intros [Hc | (cn & w0 & Hc & Ha)]; unfold __init__.
  - split; [apply bind_raise; exact Hc |].
    exact (call_method_emits _ _ _ _ (_get_class_emits _) _ _ _ Hc).
  - split.
    + rewrite (bind_ok _ _ _ _ _ Hc). apply bind_raise. exact Ha.
    + destruct (call_method_emits _ _ _ _ (_get_class_emits _) _ _ _ Hc)
        as (evs0 & Ht0 & HP0).
      destruct (call_method_emits _ _ _ _ (_get_anchors_emits _) _ _ _ Ha)
        as (evs1 & Ht1 & HP1).
      exists (evs0 ++ evs1)%list. split.
      * rewrite Ht1, Ht0, <- app_assoc. reflexivity.
      * apply Forall_app. split; assumption.
Qed.


(** A detector that was constructed holds, for each of the seven known
    fields that was not overridden, the value that [get_defaults] reports
    for it. *)
Theorem defaults_fill_missing_overrides (kwargs : gmap string PyVal)
    (w w' : World) (y : YOLO) (n : string) :
  __init__ env kwargs w = (Ok y, w') ->
  n ∈ known_fields -> kwargs !! n = None ->
  __dict__ y !! n = Some (get_defaults n)
  /\ get_defaults n <> VStr ("Unrecognized attribute name '" +:+ n +:+ "'").
Proof.
  intros Hinit Hn Hk.
  rewrite (init_keeps_dict _ _ _ _ Hinit), other_entries_lookup, init_dict_lookup, Hk.
  unfold get_defaults.
  unfold known_fields in Hn. rewrite !elem_of_cons, elem_of_nil in Hn.
  repeat (destruct Hn as [-> | Hn]; [split; [reflexivity | discriminate] |]).
  destruct Hn.
Qed.
End ConstructorFacts.

Lemma config_files_fail_before_session_witness :
  @__init__ lcg_random demo_env {[ "classes_path" := VStr "missing.txt" ]} demo_world
    = (Raise (IOError "No such file or directory"),
       logged [EvOpen "missing.txt"] demo_world)
  /\ exists evs : list Event,
       w_trace (logged [EvOpen "missing.txt"] demo_world)
         = (w_trace demo_world ++ evs)%list
       /\ Forall open_event evs.
Proof.
  apply (config_files_fail_before_session demo_env _ demo_world).
  left. reflexivity.
Defined.


Lemma defaults_fill_missing_overrides_witness :
  match fst (@__init__ lcg_random demo_env {[ "score" := VFloat (1 # 2) ]} demo_world) with
  | Ok y => __dict__ y !! "iou" = Some (get_defaults "iou")
  | Raise _ => False
  end.
Proof.
  assert (Hrun : match fst (@__init__ lcg_random demo_env
                              {[ "score" := VFloat (1 # 2) ]} demo_world) with
                 | Ok _ => True
                 | Raise _ => False
                 end) by (vm_compute; exact I).
  destruct (@__init__ lcg_random demo_env {[ "score" := VFloat (1 # 2) ]} demo_world)
    as [[y | e] w'] eqn:E; cbn [fst] in *; [| exact Hrun].
  refine (proj1 (defaults_fill_missing_overrides demo_env _ demo_world w' y "iou" E _ _)).
  - unfold known_fields. rewrite !elem_of_cons. auto 10.
  - vm_compute. reflexivity.
Defined.

(** ** The rest of [generate] *)

(** After the network is resolved, [generate] builds the palette, creates
    the placeholder for the image shape, wraps the network for several
    devices exactly when [gpu_num] is a number of at least 2, and sets up
    the evaluation; a [gpu_num] that is not a number makes it fail with
    TypeError only then, the network being already loaded and the
    placeholder created. *)
Theorem multi_gpu_only_from_two {NR : NumpyRandom} (env : Env)
    (d : gmap string PyVal) (cn : list string) (an : list (Q * Q))
    (w w1 : World) (net : Network) :
  resolve_model env d cn an w = (Ok net, w1) ->
  let wrap (many : bool) :=
    exists cs w2,
      generate env d cn an w
        = (Ok (if many then MultiGpu (default VNone (d !! "gpu_num")) net else net, cs), w2)
      /\ w_trace w2 = (w_trace w1 ++ [EvPlaceholder]
                       ++ (if many then [EvMultiGpuModel] else []) ++ [EvYoloEval])%list in
  match d !! "gpu_num" with
  | Some (VInt g) => wrap (2 <=? g)
  | Some (VFloat q) => wrap (Qle_bool 2 q)
  | _ => exists w2,
           generate env d cn an w = (Raise TypeError, w2)
           /\ w_trace w2 = (w_trace w1 ++ [EvPlaceholder])%list
  end.
Proof.
  intros Hres. cbn zeta.
  assert (Hgen : generate env d cn an w
                 = (multi <- gpu_num_ge_2 d ;;
                    net <- (if multi : bool
                            then emit EvMultiGpuModel ;;;
                                 ret (MultiGpu (default VNone (d !! "gpu_num")) net)
                            else ret net) ;;
                    emit EvYoloEval ;;;
                    ret (net, fst (shuffle (init_by_seed 10101)
                                     (sweep_colors (length cn)))))
                     (logged [EvPlaceholder]
                        {| w_trace := w_trace w1;
                           w_rng := init_by_entropy (env_entropy env (w_reseeds w1));
                           w_timer := w_timer w1; w_reseeds := S (w_reseeds w1) |})).
  { unfold generate.
    rewrite (bind_ok _ _ _ _ _ Hres).
    rewrite (bind_ok _ _ _ _ _ (generate_colors_run env _ w1)).
    rewrite (bind_ok _ _ _ _ _ (emit_logged EvPlaceholder _)). reflexivity. }
  rewrite Hgen. clear Hgen. unfold gpu_num_ge_2.
  destruct (d !! "gpu_num") as [[| g | q | s | a b] |];
    try (eexists; split; reflexivity).
  - unfold bind at 1. unfold ret at 1.
    destruct (2 <=? g); eexists _, _; (split; [reflexivity |]);
      unfold logged; cbn [w_trace app]; rewrite <- ?app_assoc; reflexivity.
  - unfold bind at 1. unfold ret at 1.
    destruct (Qle_bool 2 q); eexists _, _; (split; [reflexivity |]);
      unfold logged; cbn [w_trace app]; rewrite <- ?app_assoc; reflexivity.
Qed.

Lemma multi_gpu_only_from_two_witness :
  exists cs w2,
    @generate lcg_random demo_env (init_dict {[ "gpu_num" := VInt 2 ]})
      demo_class_names demo_anchors demo_world
    = (Ok (MultiGpu (VInt 2) (Loaded {| out_depth := 24; num_outputs := 3 |}), cs), w2)
    /\ w_trace w2 = [EvLoadModel "model_data/yolo.h5"; EvPlaceholder;
                     EvMultiGpuModel; EvYoloEval].
Proof.
  assert (Hres : @resolve_model lcg_random demo_env (init_dict {[ "gpu_num" := VInt 2 ]})
                   demo_class_names demo_anchors demo_world
                 = (Ok (Loaded {| out_depth := 24; num_outputs := 3 |}),
                    logged [EvLoadModel "model_data/yolo.h5"] demo_world))
    by reflexivity.
  pose proof (@multi_gpu_only_from_two lcg_random demo_env _ demo_class_names demo_anchors
                demo_world (logged [EvLoadModel "model_data/yolo.h5"] demo_world)
                (Loaded {| out_depth := 24; num_outputs := 3 |}) Hres) as H.
  assert (Hg : init_dict {[ "gpu_num" := VInt 2 ]} !! "gpu_num" = Some (VInt 2))
    by (vm_compute; reflexivity).
  cbn zeta in H. rewrite Hg in H.
  cbn [default Z.leb Z.compare Pos.compare Pos.compare_cont] in H.
  exact H.
Defined.

(** ** What detection leaves alone *)

Section PreserveFacts.
Context {NR : NumpyRandom}.
Context {X : Type}.
Variable f : World -> X.
Hypothesis f_logged : forall (evs : list Event) (w : World), f (logged evs w) = f w.

Lemma preserves_ret {A} (a : A) : preserves f (ret a).
Proof. intros w r w' [= <- <-]. reflexivity. Qed.

Lemma preserves_raise {A} (e : Exn) : preserves f (@raise _ A e).
Proof. intros w r w' [= <- <-]. reflexivity. Qed.

Lemma preserves_emit (ev : Event) : preserves f (emit ev).
Proof. intros w r w' [= <- <-]. apply (f_logged [ev]). Qed.

Lemma preserves_bind {A B} (m : M A) (k : A -> M B) :
  preserves f m -> (forall a, preserves f (k a)) -> preserves f (bind m k).
Proof.
  intros Hm Hk w r w' Hrun. unfold bind in Hrun.
  destruct (m w) as [[a | e] w1] eqn:Em.
  - rewrite (Hk a _ _ _ Hrun). exact (Hm _ _ _ Em).
  - injection Hrun as <- <-. exact (Hm _ _ _ Em).
Qed.

Lemma preserves_or_raise {A} (o : option A) (e : Exn) : preserves f (or_raise o e).
Proof. destruct o; [apply preserves_ret | apply preserves_raise]. Qed.

Lemma preserves_py_assert (c : bool) (msg : string) : preserves f (py_assert c msg).
Proof. destruct c; [apply preserves_ret | apply preserves_raise]. Qed.

Lemma preserves_for_each {A} (g : A -> M unit) (l : list A) :
  (forall a, preserves f (g a)) -> preserves f (for_each g l).
Proof.
  intros Hg. induction l as [| a l IH]; cbn [for_each].
  - apply preserves_ret.
  - apply preserves_bind; [apply Hg | intros _; exact IH].
Qed.

Lemma preserves_preprocess (d : gmap string PyVal) (image : Image) :
  preserves f (preprocess d image).
Proof.
  unfold preprocess, call_letterbox.
  destruct (size_setting d) as [| s0 s1 |];
    repeat first [ apply preserves_bind; [| intros ?]
                 | apply preserves_emit | apply preserves_or_raise
                 | apply preserves_py_assert | apply preserves_ret
                 | apply preserves_raise ].
Qed.

Lemma preserves_draw_detection (env : Env) (self : YOLO) (image : Image)
    (r : Detections) (thickness : Z) (ic : nat * Z) :
  preserves f (draw_detection env self image r thickness ic).
Proof.
  unfold draw_detection. destruct ic as [i c].
  apply preserves_bind; [apply preserves_or_raise | intros predicted_class].
  apply preserves_bind; [apply preserves_or_raise | intros box].
  apply preserves_bind; [apply preserves_or_raise | intros score].
  destruct (clamp_box (env_promotion env) box image) as [[[t l] b] rr].
  repeat first [ apply preserves_bind; [| intros ?]
               | apply preserves_for_each; intros ?
               | apply preserves_emit | apply preserves_or_raise
               | apply preserves_ret ].
Qed.
End PreserveFacts.

Section DetectionFrame.
Context {NR : NumpyRandom}.
Variable env : Env.

Lemma rng_view_logged (evs : list Event) (w : World) :
  rng_view (logged evs w) = rng_view w.
Proof. reflexivity. Qed.

Lemma w_timer_logged (evs : list Event) (w : World) :
  w_timer (logged evs w) = w_timer w.
Proof. reflexivity. Qed.

Lemma preserves_rng_timer : preserves rng_view (timer env).
Proof. intros w r w' [= <- <-]. reflexivity. Qed.

Lemma preserves_rng_detect_image (self : YOLO) (image : Image) :
  preserves rng_view (detect_image env self image).
Proof.
  unfold detect_image.
  apply preserves_bind; [apply preserves_rng_timer | intros start].
  apply preserves_bind; [apply preserves_preprocess, rng_view_logged | intros boxed].
  apply preserves_bind; [apply preserves_emit, rng_view_logged | intros _].
  apply preserves_bind; [apply preserves_emit, rng_view_logged | intros _].
  apply preserves_bind;
    [apply preserves_for_each; intros ic;
     apply preserves_draw_detection, rng_view_logged | intros _].
  apply preserves_bind; [apply preserves_rng_timer | intros end_].
  apply preserves_ret.
Qed.

(** A detection that succeeds returns the image it was given, has read
    the clock exactly twice, and has left NumPy's global generator in the
    state it found it in. *)
Theorem detect_image_returns_its_argument (self : YOLO) (image im : Image)
    (w w' : World) :
  detect_image env self image w = (Ok im, w') ->
  im = image
  /\ w_timer w' = S (S (w_timer w))
  /\ w_rng w' = w_rng w /\ w_reseeds w' = w_reseeds w.
Proof.
  intros Hrun.
  pose proof (preserves_rng_detect_image self image _ _ _ Hrun) as Hrng.
  unfold rng_view in Hrng. injection Hrng as Hr Hs.
  unfold detect_image in Hrun.
  apply bind_Ok_inv in Hrun as (start & w1 & Et & Hrun).
  injection Et as _ <-.
  apply bind_Ok_inv in Hrun as (boxed & w2 & Ep & Hrun).
  apply (preserves_preprocess w_timer w_timer_logged) in Ep.
  apply bind_Ok_inv in Hrun as ([] & w3 & E3 & Hrun). injection E3 as <-.
  apply bind_Ok_inv in Hrun as ([] & w4 & E4 & Hrun). injection E4 as <-.
  apply bind_Ok_inv in Hrun as ([] & w5 & E5 & Hrun).
  apply (preserves_for_each w_timer _ _
           (fun ic => preserves_draw_detection w_timer w_timer_logged
                        env self image _ _ ic)) in E5.
  apply bind_Ok_inv in Hrun as (end_ & w6 & E6 & Hrun).
  injection E6 as _ <-. injection Hrun as <- <-.
  cbn [w_timer] in *. repeat split; congruence.
Qed.
End DetectionFrame.

Lemma detect_image_returns_its_argument_witness :
  match @detect_image lcg_random demo_env demo_detector {| width := 640; height := 480 |}
          demo_world with
  | (Ok im, w') => im = {| width := 640; height := 480 |} /\ w_timer w' = 2%nat
  | _ => False
  end.
Proof.
  assert (Hrun : match fst (@detect_image lcg_random demo_env demo_detector
                              {| width := 640; height := 480 |} demo_world) with
                 | Ok _ => True
                 | Raise _ => False
                 end) by (vm_compute; exact I).
  destruct (@detect_image lcg_random demo_env demo_detector
              {| width := 640; height := 480 |} demo_world) as [[im | e] w'] eqn:E;
    cbn [fst] in Hrun; [| exact Hrun].
  destruct (detect_image_returns_its_argument demo_env _ _ _ _ _ E) as (Him & Ht & _).
  split; [exact Him | exact Ht].
Defined.

Section StreamFrame.
Context {NR : NumpyRandom}.
Variable env : Env.

Lemma preserves_rng_loop_body (yolo : YOLO) (isOutput : bool) (frame : option Frame)
    (k : nat) (prev_time : Q) (s : FpsState) :
  preserves rng_view (loop_body env yolo isOutput frame k prev_time s).
Proof.
  unfold loop_body.
  apply preserves_bind;
    [destruct frame; [apply preserves_ret | apply preserves_raise] | intros image].
  apply preserves_bind; [apply preserves_rng_detect_image | intros image'].
  apply preserves_bind; [apply preserves_rng_timer | intros curr_time].
  apply preserves_bind; [apply preserves_emit, rng_view_logged | intros _].
  apply preserves_bind; [apply preserves_emit, rng_view_logged | intros _].
  apply preserves_bind;
    [destruct isOutput; [apply preserves_emit, rng_view_logged | apply preserves_ret]
    | intros _].
  apply preserves_bind; [apply preserves_emit, rng_view_logged | intros _].
  apply preserves_ret.
Qed.

Lemma preserves_rng_video_loop (yolo : YOLO) (isOutput : bool) (fuel : nat) :
  forall (frames : list Frame) (k : nat) (prev_time : Q) (s : FpsState),
    preserves rng_view (video_loop env fuel yolo isOutput frames k prev_time s).
Proof.
  induction fuel as [| fuel' IH]; intros frames k prev_time s; cbn [video_loop].
  - apply preserves_ret.
  - apply preserves_bind; [apply preserves_emit, rng_view_logged | intros _].
    destruct (vid_read frames) as [[return_value frame] rest].
    apply preserves_bind; [apply preserves_rng_loop_body | intros [[stop t] s']].
    destruct stop; [apply preserves_ret | apply IH].
Qed.

(** Streaming never draws from, seeds or reseeds NumPy's global generator,
    however it ends. *)
Theorem detect_video_leaves_random_state (fuel : nat) (yolo : YOLO)
    (video_path output_path : string) (w w' : World) (r : outcome (option unit)) :
  detect_video env fuel yolo video_path output_path w = (r, w') ->
  w_rng w' = w_rng w /\ w_reseeds w' = w_reseeds w.
Proof.
  intros Hrun.
  assert (Hp : preserves rng_view (detect_video env fuel yolo video_path output_path)).
  { unfold detect_video.
    apply preserves_bind; [apply preserves_emit, rng_view_logged | intros _].
    apply preserves_bind; [apply preserves_or_raise | intros frames].
    apply preserves_bind;
      [destruct (negb (String.eqb output_path ""));
       [apply preserves_emit, rng_view_logged | apply preserves_ret] | intros _].
    apply preserves_bind; [apply preserves_rng_timer | intros prev_time].
    apply preserves_bind; [apply preserves_rng_video_loop | intros [[] |]].
    - apply preserves_bind; [apply preserves_emit, rng_view_logged | intros _].
      apply preserves_ret.
    - apply preserves_ret. }
  specialize (Hp _ _ _ Hrun). unfold rng_view in Hp. injection Hp as -> ->.
  split; reflexivity.
Qed.
End StreamFrame.

Lemma detect_video_leaves_random_state_witness :
  let run := @detect_video lcg_random demo_env 3 demo_detector "clip.mp4" "" demo_world in
  w_rng (snd run) = w_rng demo_world /\ w_reseeds (snd run) = w_reseeds demo_world.
Proof.
  cbn zeta.
  apply (detect_video_leaves_random_state demo_env 3 demo_detector "clip.mp4" ""
           demo_world _ (fst (@detect_video lcg_random demo_env 3 demo_detector
                                "clip.mp4" "" demo_world))).
  apply surjective_pairing.
Defined.

(** ** Where the drawing lands *)

Section DrawingFacts.
Context {NR : NumpyRandom}.
Variable env : Env.

Lemma emits_only_for_each_Forall (P : Event -> Prop) {A} (Q : A -> Prop)
    (g : A -> M unit) (l : list A) :
  Forall Q l -> (forall a, Q a -> emits_only P (g a)) -> emits_only P (for_each g l).
Proof.
  intros Hl Hg. induction Hl as [| a l Ha Hl IH]; cbn [for_each].
  - apply emits_only_ret.
  - apply emits_only_bind; [apply Hg, Ha | intros _; exact IH].
Qed.

Lemma range_nonneg (n : Z) : Forall (fun k => 0 <= k) (range n).
Proof. unfold range. rewrite Forall_map. apply Forall_forall. intros x _. cbn. lia. Qed.

Lemma range_nonpos (n : Z) : n <= 0 -> range n = [].
Proof. intros Hn. unfold range. rewrite Z2Nat.nonpos by exact Hn. reflexivity. Qed.

Lemma clamp_box_inside (pr : Promotion) (q1 q2 q3 q4 : Q) (image : Image) :
  exists t l b r : Z,
    clamp_box pr (q1, q2, q3, q4) image = (t, l, b, r)
    /\ 0 <= t /\ 0 <= l /\ b <= height image /\ r <= width image.
Proof. eexists _, _, _, _. split; [reflexivity |]. repeat split; lia. Qed.

Lemma draw_detection_clamped (self : YOLO) (image : Image) (r : Detections)
    (thickness : Z) (ic : nat * Z) :
  emits_only (clamped_to_image image) (draw_detection env self image r thickness ic).
Proof.
  unfold draw_detection. destruct ic as [i c].
  apply emits_only_bind; [auto with trace | intros predicted_class].
  apply emits_only_bind; [auto with trace | intros box].
  apply emits_only_bind; [auto with trace | intros score].
  destruct box as [[[q1 q2] q3] q4].
  destruct (clamp_box_inside (env_promotion env) q1 q2 q3 q4 image)
    as (t & l & b & rr & E & Ht & Hl & Hb & Hr).
  rewrite E. cbn [fst snd].
  apply emits_only_bind.
  - apply (emits_only_for_each_Forall _ _ _ _ (range_nonneg thickness)).
    intros k Hk.
    apply emits_only_bind; [auto with trace | intros color].
    apply emits_only_emit. cbn. lia.
  - intros _. apply emits_only_bind; [auto with trace | intros color].
    apply emits_only_bind; [| intros _].
    + apply emits_only_emit.
      destruct (Z.leb_spec 0 (t - snd (env_textsize env
                  (predicted_class +:+ " " +:+ env_format_score env score))));
        cbn; lia.
    + apply emits_only_emit.
      destruct (Z.leb_spec 0 (t - snd (env_textsize env
                  (predicted_class +:+ " " +:+ env_format_score env score))));
        cbn; lia.
Qed.
End DrawingFacts.



(** On an image whose width and height add up to less than 300 the line
    thickness is zero: [detect_image] draws no outline rectangle at all,
    only labels. *)
Theorem small_image_gets_no_outline {NR : NumpyRandom} (env : Env) (self : YOLO)
    (image : Image) (w w' : World) (r : outcome Image) :
  width image + height image < 300 ->
  detect_image env self image w = (r, w') ->
  exists evs : list Event,
    w_trace w' = (w_trace w ++ evs)%list /\ Forall not_outline evs.
Proof.
  intros Hsmall. revert w r w'.
  change (emits_only not_outline (detect_image env self image)).
  assert (Hthin : range ((width image + height image) / 300) = []).
  { apply range_nonpos.
    assert ((width image + height image) / 300 < 1)
      by (apply Z.div_lt_upper_bound; lia).
    lia. }
  unfold detect_image, timer.
  apply emits_only_bind; [repeat trace_step | intros start].
  apply emits_only_bind; [| intros boxed_image].
  { unfold preprocess, call_letterbox.
    destruct (size_setting (__dict__ self)) as [| s0 s1 |]; repeat trace_step. }
  apply emits_only_bind; [repeat trace_step | intros _].
  apply emits_only_bind; [repeat trace_step | intros _].
  apply emits_only_bind; [| intros _; repeat trace_step].
  apply emits_only_for_each. intros [i c]. unfold draw_detection.
  apply emits_only_bind; [auto with trace | intros predicted_class].
  apply emits_only_bind; [auto with trace | intros box].
  apply emits_only_bind; [auto with trace | intros score].
  destruct (clamp_box (env_promotion env) box image) as [[[t l] b] rr].
  rewrite Hthin. cbn [for_each].
  repeat trace_step.
Qed.

Lemma small_image_gets_no_outline_witness :
  let image := {| width := 160; height := 120 |} in
  let run := @detect_image lcg_random demo_env demo_detector image demo_world in
  exists evs : list Event,
    w_trace (snd run) = (w_trace demo_world ++ evs)%list /\ Forall not_outline evs.
Proof.
  cbn zeta.
  apply (small_image_gets_no_outline demo_env demo_detector
           {| width := 160; height := 120 |} demo_world _
           (fst (@detect_image lcg_random demo_env demo_detector
                   {| width := 160; height := 120 |} demo_world))).
  - cbn [width height]. lia.
  - apply surjective_pairing.
Defined.

(** ** The order of the clamped edges *)

(** A box that is the right way round and overlaps the image stays the
    right way round when clamped: top is at most bottom and left at most
    right. *)
Theorem clamp_box_keeps_edge_order (pr : Promotion)
    (b_top b_left b_bottom b_right : Q) (image : Image) :
  0 <= width image -> 0 <= height image ->
  (b_top <= b_bottom)%Q -> (b_left <= b_right)%Q ->
  0 <= round_half_up pr b_bottom -> round_half_up pr b_top <= height image ->
  0 <= round_half_up pr b_right -> round_half_up pr b_left <= width image ->
  let '(t, l, b, r) := clamp_box pr (b_top, b_left, b_bottom, b_right) image in
  t <= b /\ l <= r.
Proof.
  intros HW HH Hv Hh Hb Ht Hr Hl. unfold clamp_box.
  pose proof (round_half_up_mono pr _ _ Hv Hb).
  pose proof (round_half_up_mono pr _ _ Hh Hr).
  split; lia.
Qed.

Lemma clamp_box_keeps_edge_order_witness :
  let '(t, l, b, r) :=
    clamp_box ValueBased (-5, 30, 520, 700)%Q {| width := 640; height := 480 |} in
  t <= b /\ l <= r.
Proof.
  apply (clamp_box_keeps_edge_order ValueBased (-5) 30 520 700
           {| width := 640; height := 480 |});
    vm_compute; discriminate.
Defined.

(** ** The frame-rate window *)

(** As long as no iteration takes longer than one time unit, the
    accumulator stays between 0 and 1 and the frame counter does not go
    negative; and whenever a value is displayed it counts at least one
    frame. *)
Theorem fps_update_keeps_window (s : FpsState) (exec_time : Q) :
  (0 <= accum_time s)%Q -> (accum_time s <= 1)%Q -> 0 <= curr_fps s ->
  (0 <= exec_time)%Q -> (exec_time <= 1)%Q ->
  let s' := fps_update s exec_time in
  (0 <= accum_time s')%Q /\ (accum_time s' <= 1)%Q /\ 0 <= curr_fps s'
  /\ (fps s' = fps s \/ (fps s' = "FPS: " +:+ pretty (curr_fps s + 1)
                         /\ 1 <= curr_fps s + 1)).
Proof.
  intros Ha0 Ha1 Hc He0 He1. cbn zeta. unfold fps_update, float_add, float_sub.
  destruct (fl64_between 0 2 (accum_time s + exec_time)) as [Hs0 Hs2];
    [reflexivity | reflexivity | change (inject_Z 0) with 0%Q;
                                 change (inject_Z 2) with 2%Q; lra |].
  change (inject_Z 0) with 0%Q in Hs0. change (inject_Z 2) with 2%Q in Hs2.
  set (accum := fl64 (accum_time s + exec_time)) in *.
  destruct (Qle_bool accum 1) eqn:Hle; cbn [negb accum_time curr_fps fps].
  - apply Qle_bool_iff in Hle.
    split; [exact Hs0 |]. split; [exact Hle |]. split; [lia |]. left. reflexivity.
  - assert (Hgt : ~ (accum <= 1)%Q)
      by (intros H; apply Qle_bool_iff in H; congruence).
    apply Qnot_le_lt in Hgt.
    destruct (fl64_unit (accum - 1)) as [Hd0 Hd1]; [lra |].
    split; [exact Hd0 |]. split; [exact Hd1 |]. split; [lia |].
    right. split; [reflexivity | lia].
Qed.

Lemma fps_update_keeps_window_witness :
  let s := {| accum_time := 3 # 4; curr_fps := 2; fps := "FPS: ??" |} in
  let s' := fps_update s (1 # 2) in
  (0 <= accum_time s')%Q /\ (accum_time s' <= 1)%Q /\ 0 <= curr_fps s'
  /\ (fps s' = fps s \/ (fps s' = "FPS: " +:+ pretty (curr_fps s + 1)
                         /\ 1 <= curr_fps s + 1)).
Proof.
  apply (fps_update_keeps_window
           {| accum_time := 3 # 4; curr_fps := 2; fps := "FPS: ??" |} (1 # 2));
    cbn [accum_time curr_fps]; first [discriminate | lia].
Defined.
